(** * Documind: extraction and question-answering core

    A shallow embedding of the Python backend (text_extractor.py,
    table_extractor.py, visual_extractor.py, app.py, server.py) and the
    properties its specification states about it.

    Conventions of the embedding.
    - A Python [str] is a list of characters; the characters are the code
      points below 256, with the character classes Python gives them
      ([str.isspace], [str.isupper], [str.islower], [str.isdigit] and the
      regular-expression class [\d]).
    - A Python exception is a value of [exn]; code that can raise returns a
      [result], and [try]/[except] is a [match] on it.
    - External capabilities (the language model, the JSON parser, line
      detection, OCR, the retrieval chain) are the variables of the section
      that uses them, or fields of the input they are attached to. *)

From Stdlib Require Import List Ascii ZArith NArith Arith Bool Lia Setoid.
From Stdlib Require Import Sorted.
From Stdlib Require String.
From Stdlib Require Import Floats Uint63.
Import ListNotations.
Import String.StringSyntax.

Delimit Scope string_scope with string.

Set Implicit Arguments.

(** ** Python strings *)

Module Py.

Definition str := list ascii.

(** A literal. *)
Definition lit (s : String.string) : str := String.list_ascii_of_string s.

Arguments lit s%_string.

Definition code (c : ascii) : N := N_of_ascii c.

Definition between (lo hi : N) (c : ascii) : bool :=
  (N.leb lo (code c) && N.leb (code c) hi)%bool.

(** [c.isspace()]: tab to carriage return, the four information separators,
    space, next-line and no-break space. *)
Definition isspace (c : ascii) : bool :=
  between 9 13 c || between 28 32 c || N.eqb (code c) 133 || N.eqb (code c) 160.

(** Upper-case letters: A-Z and the Latin-1 capitals. *)
Definition isupper_c (c : ascii) : bool :=
  between 65 90 c || between 192 214 c || between 216 222 c.

(** Lower-case letters: a-z, the ordinal indicators, micro and the Latin-1
    small letters. *)
Definition islower_c (c : ascii) : bool :=
  between 97 122 c || N.eqb (code c) 170 || N.eqb (code c) 181
  || N.eqb (code c) 186 || between 223 246 c || between 248 255 c.

(** [c.isdigit()]: 0-9 and the superscripts one, two, three. *)
Definition isdigit_c (c : ascii) : bool :=
  between 48 57 c || between 178 179 c || N.eqb (code c) 185.

(** The class [\d] of [re]: decimal digits only. *)
Definition re_digit (c : ascii) : bool := between 48 57 c.

Fixpoint dropWhile (p : ascii -> bool) (s : str) : str :=
  match s with
  | [] => []
  | c :: s' => if p c then dropWhile p s' else s
  end.

Fixpoint takeWhile (p : ascii -> bool) (s : str) : str :=
  match s with
  | [] => []
  | c :: s' => if p c then c :: takeWhile p s' else []
  end.

Definition lstrip (s : str) : str := dropWhile isspace s.
Definition rstrip (s : str) : str := rev (dropWhile isspace (rev s)).

(** [s.strip()] *)
Definition strip (s : str) : str := rstrip (lstrip s).

(** [s.split()]: the maximal runs of non-space characters; [cur] is the run
    being read. *)
Fixpoint split_ws (cur : str) (s : str) : list str :=
  match s with
  | [] => match cur with [] => [] | _ => [cur] end
  | c :: s' =>
      if isspace c
      then match cur with [] => split_ws [] s' | _ => cur :: split_ws [] s' end
      else split_ws (cur ++ [c]) s'
  end.

Definition split (s : str) : list str := split_ws [] s.

(** [s.split(sep)] for a one-character separator. *)
Fixpoint split_on (sep : ascii) (s : str) : list str :=
  match s with
  | [] => [[]]
  | c :: s' =>
      if Ascii.eqb c sep then [] :: split_on sep s'
      else match split_on sep s' with
           | w :: ws => (c :: w) :: ws
           | [] => [[c]]
           end
  end.

(** [sep.join(parts)] *)
Fixpoint join (sep : str) (parts : list str) : str :=
  match parts with
  | [] => []
  | [p] => p
  | p :: rest => p ++ sep ++ join sep rest
  end.

(** [s.startswith(prefix)] *)
Fixpoint startswith (prefix s : str) : bool :=
  match prefix, s with
  | [], _ => true
  | _ :: _, [] => false
  | p :: prefix', c :: s' => Ascii.eqb p c && startswith prefix' s'
  end.

(** [s.endswith(suffix)] *)
Definition endswith (suffix s : str) : bool := startswith (rev suffix) (rev s).

(** [sub in s] *)
Fixpoint contains (sub s : str) : bool :=
  startswith sub s ||
  match s with
  | [] => false
  | _ :: s' => contains sub s'
  end.

(** [s.isupper()]: no lower-case character and at least one upper-case one. *)
Definition isupper (s : str) : bool :=
  forallb (fun c => negb (islower_c c)) s && existsb isupper_c s.

(** [s.istitle()]: [prev] tells whether the previous character is cased,
    [cased] whether a cased character has been seen. *)
Fixpoint istitle_from (prev cased : bool) (s : str) : bool :=
  match s with
  | [] => cased
  | c :: s' =>
      if isupper_c c then (if prev then false else istitle_from true true s')
      else if islower_c c then (if prev then istitle_from true true s' else false)
      else istitle_from false cased s'
  end.

Definition istitle (s : str) : bool := istitle_from false false s.

(** [not s.strip()]: only white space. *)
Definition blank (s : str) : bool := forallb isspace s.

(** Truth value of a string: [if s] *)
Definition truthy (s : str) : bool :=
  match s with [] => false | _ => true end.

(** [int(s)] for a string of decimal digits. *)
Definition digit_value (c : ascii) : N := (code c - 48)%N.

Definition int_of_digits (s : str) : N :=
  fold_left (fun acc c => (10 * acc + digit_value c)%N) s 0%N.

Definition newline : ascii := ascii_of_nat 10.

(** [enumerate(l, start)] *)
Fixpoint enumerate (A : Type) (start : nat) (l : list A) : list (nat * A) :=
  match l with
  | [] => []
  | x :: l' => (start, x) :: enumerate (S start) l'
  end.

(** [str(n)] for an integer [n >= 0]: its decimal digits, the last one
    first put in front of [acc]; [fuel] bounds the number of digits. *)
Definition digit_char (d : N) : ascii := ascii_of_N (48 + d).

Fixpoint digits_of (fuel : nat) (n : N) (acc : str) : str :=
  match fuel with
  | O => acc
  | S fuel' =>
      let acc' := digit_char (n mod 10) :: acc in
      if (n <? 10)%N then acc' else digits_of fuel' (n / 10) acc'
  end.

Definition str_of_N (n : N) : str :=
  digits_of (S (N.to_nat (N.log2 n))) n [].

Definition str_of_nat (n : nat) : str := str_of_N (N.of_nat n).

(** [s.lower()]: the upper-case letters are 32 below their lower-case
    ones. *)
Definition lower_c (c : ascii) : ascii :=
  if isupper_c c then ascii_of_N (code c + 32) else c.

Definition lower (s : str) : str := map lower_c s.

(** [a == b] *)
Fixpoint str_eqb (a b : str) : bool :=
  match a, b with
  | [], [] => true
  | x :: a', y :: b' => Ascii.eqb x y && str_eqb a' b'
  | _, _ => false
  end.

(** [os.path.join(a, b)] on POSIX paths. *)
Definition path_join (a b : str) : str :=
  if startswith (lit "/") b then b
  else if negb (truthy a) || endswith (lit "/") a then a ++ b
  else a ++ lit "/" ++ b.

(** [d.get(key)] on a dict given as the list of its items. *)
Fixpoint dict_get (A : Type) (key : str) (d : list (str * A)) : option A :=
  match d with
  | [] => None
  | (k, v) :: d' => if str_eqb k key then Some v else dict_get key d'
  end.

End Py.

Import Py.

(** ** Exceptions *)

Inductive exn_class := ValueError | IndexError | OtherException.

Record exn := mkExn { exn_kind : exn_class; exn_msg : str }.

Inductive result (A : Type) : Type :=
| Ok (a : A)
| Raise (e : exn).

Arguments Ok {A} a.
Arguments Raise {A} e.

Definition bind (A B : Type) (m : result A) (k : A -> result B) : result B :=
  match m with
  | Ok a => k a
  | Raise e => Raise e
  end.

Notation "x <- m ;; k" := (bind m (fun x => k))
  (at level 61, m at next level, right associativity).

(** [a and b], [a or b]: the right operand is evaluated only when needed. *)
Definition and_ (a b : result bool) : result bool :=
  x <- a ;; if x then b else Ok false.

Definition or_ (a b : result bool) : result bool :=
  x <- a ;; if x then Ok true else b.

(** [s[0]] *)
Definition getitem0 (s : str) : result ascii :=
  match s with
  | [] => Raise (mkExn IndexError (lit "string index out of range"))
  | c :: _ => Ok c
  end.

(** ** text_extractor.py *)

Module TextExtractor.

(** [any(char.isdigit() and char + "." in line for char in "123456789")] *)
Definition numbered (line : str) : bool :=
  existsb (fun char => isdigit_c char && contains [char; "."%char] line)
          (lit "123456789").

Definition _is_heading (line : str) : result bool :=
  if negb (truthy line) then Ok false
  else
    let line := strip line in
    c <- and_ (Ok (length (split line) <=? 10))
              (or_ (Ok (isupper line))
              (or_ (Ok (istitle line))
              (or_ (Ok (numbered line))
              (or_ (Ok (endswith (lit ":") line))
                   (and_ (Ok (length line <? 100))
                         (c0 <- getitem0 line ;; Ok (isupper [c0])))))))
    ;;
    if c then Ok true else Ok false.

(** [len([p for p in heading.split(".") if p and p[0].isdigit()])] *)
Definition numeric_leading (p : str) : bool :=
  match p with
  | [] => false
  | c :: _ => isdigit_c c
  end.

Definition _determine_heading_level (heading : str) : nat :=
  let heading := strip heading in
  if numbered heading
  then length (filter numeric_leading (split_on "."%char heading))
  else if isupper heading then 1
  else if istitle heading && (length heading <? 50) then 2
  else 3.

Inductive block :=
| Paragraph (text : str)
| Heading (text : str) (level : nat).

Definition block_text (b : block) : str :=
  match b with
  | Paragraph text => text
  | Heading text _ => text
  end.

Record statistics := mkStatistics {
  total_words : nat;
  total_paragraphs : nat;
  total_headings : nat;
  total_list_items : nat;
  total_sections : nat;
  hierarchy_depth : nat
}.

Definition statistics0 : statistics := mkStatistics 0 0 0 0 0 0.

(** The variables of the loop over the lines of a page. *)
Record page_state := mkPageState {
  page_content : list block;
  paragraph_buffer : list str;
  stats : statistics
}.

Definition count_paragraph (st : statistics) (paragraph_text : str) : statistics :=
  mkStatistics (total_words st + length (split paragraph_text))
               (total_paragraphs st + 1)
               (total_headings st) (total_list_items st)
               (total_sections st) (hierarchy_depth st).

Definition count_heading (st : statistics) : statistics :=
  mkStatistics (total_words st) (total_paragraphs st)
               (total_headings st + 1) (total_list_items st)
               (total_sections st) (hierarchy_depth st).

(** [if paragraph_buffer: ...]: the buffered lines become one paragraph. *)
Definition flush (s : page_state) : page_state :=
  match paragraph_buffer s with
  | [] => s
  | _ :: _ =>
      let paragraph_text := join (lit " ") (paragraph_buffer s) in
      mkPageState (page_content s ++ [Paragraph paragraph_text])
                  []
                  (count_paragraph (stats s) paragraph_text)
  end.

Definition add_heading (s : page_state) (line : str) : page_state :=
  mkPageState
    (page_content s ++ [Heading line (_determine_heading_level line)])
    (paragraph_buffer s)
    (count_heading (stats s)).

Definition buffer_line (s : page_state) (line : str) : page_state :=
  mkPageState (page_content s) (paragraph_buffer s ++ [line]) (stats s).

(** The body of [for line in lines]. *)
Definition line_step (s : page_state) (line : str) : result page_state :=
  let line := strip line in
  if negb (truthy line) then Ok (flush s)
  else
    h <- _is_heading line ;;
    if h then Ok (add_heading (flush s) line)
    else Ok (buffer_line s line).

Fixpoint for_lines (s : page_state) (lines : list str) : result page_state :=
  match lines with
  | [] => Ok s
  | line :: rest => s' <- line_step s line ;; for_lines s' rest
  end.

(** The lines of one page, with the flush at the end of the page. *)
Definition page_lines (st : statistics) (lines : list str)
  : result (list block * statistics) :=
  s <- for_lines (mkPageState [] [] st) lines ;;
  let s := flush s in
  Ok (page_content s, stats s).

Definition extract_page (st : statistics) (text : str)
  : result (list block * statistics) :=
  page_lines st (split_on newline text).

Fixpoint for_pages (content : list block) (st : statistics) (pages : list str)
  : result (list block * statistics) :=
  match pages with
  | [] => Ok (content, st)
  | text :: rest =>
      if negb (truthy text) then for_pages content st rest
      else
        r <- extract_page st text ;;
        for_pages (content ++ fst r) (snd r) rest
  end.

Record text_result := mkTextResult {
  content : list block;
  text_statistics : statistics;
  total_pages : nat
}.

(** [pages] are the texts [page.extract_text()] of the pages, in order. *)
Definition async_extract (pages : list str) : result text_result :=
  r <- for_pages [] statistics0 pages ;;
  Ok (mkTextResult (fst r) (snd r) (length pages)).

(** [async_extract] with the reading of the file. [reader] is what
    [PdfReader(file_path)] gives: the exception it raises, or the pages,
    each with what [page.extract_text()] gives or raises on it. The text
    of a page is read when the loop reaches the page. *)
Fixpoint for_pages_read (content : list block) (st : statistics)
  (pages : list (result str)) : result (list block * statistics) :=
  match pages with
  | [] => Ok (content, st)
  | page :: rest =>
      text <- page ;;
      if negb (truthy text) then for_pages_read content st rest
      else
        r <- extract_page st text ;;
        for_pages_read (content ++ fst r) (snd r) rest
  end.

Definition async_extract_file (reader : result (list (result str)))
  : result text_result :=
  pages <- reader ;;
  r <- for_pages_read [] statistics0 pages ;;
  Ok (mkTextResult (fst r) (snd r) (length pages)).

End TextExtractor.

(** ** table_extractor.py *)

Module TableExtractor.

(** A cell of a raw grid is a string or [None]. *)
Definition cell := option str.
Definition raw_table := list (list cell).

(** [str(cell).strip() if cell else ""] *)
Definition clean_cell (c : cell) : str :=
  match c with
  | Some s => if truthy s then strip s else []
  | None => []
  end.

Definition row_sep : str := lit " | ".

Fixpoint formatted_rows (table : raw_table) : list str :=
  match table with
  | [] => []
  | row :: rest =>
      let cleaned_row := map clean_cell row in
      if existsb truthy cleaned_row
      then join row_sep cleaned_row :: formatted_rows rest
      else formatted_rows rest
  end.

Definition _format_table_for_llm (table : raw_table) : str :=
  join [newline] (formatted_rows table).

Definition prompt (table_text : str) : str :=
  lit "Please analyze this table data and convert it into a structured format.
            Focus on identifying headers and organizing the data appropriately.

            Table Data:
            "
  ++ table_text ++
  lit "

            Convert this into a structured format with clear headers and data rows.
            Return only the JSON structure without any explanation.".

(** [structured_data]: the parsed reply, the fallback, or the error. *)
Inductive structured (json : Type) : Type :=
| Parsed (j : json)
| RawText (raw_text : str) (rows : list str)
| ErrorData (error : str).

Arguments Parsed {json} j.
Arguments RawText {json} raw_text rows.
Arguments ErrorData {json} error.

Record llm_outcome (json : Type) := mkOutcome {
  success : bool;
  outcome_data : structured json
}.

(** What [json.loads] does on a reply: it returns the value, it raises
    [json.JSONDecodeError], or it raises another exception (a
    [RecursionError] on a deeply nested text, a plain [ValueError] on a
    number with more digits than [int] converts). *)
Inductive loads_result (json : Type) : Type :=
| Loaded (j : json)
| JSONDecodeError
| LoadsRaised (e : exn).

Arguments Loaded {json} j.
Arguments JSONDecodeError {json}.
Arguments LoadsRaised {json} e.

(** [ainvoke] is the model call of this invocation, giving [response.content]
    or raising; [json_loads] is [json.loads]. The inner [except] catches
    [json.JSONDecodeError] only; every other exception reaches the outer
    one. *)
Definition _process_table_with_llm (json : Type)
  (ainvoke : str -> result str) (json_loads : str -> loads_result json)
  (table_text : str) : llm_outcome json :=
  match ainvoke (prompt table_text) with
  | Ok response_content =>
      match json_loads response_content with
      | Loaded structured_data => mkOutcome true (Parsed structured_data)
      | JSONDecodeError =>
          mkOutcome true (RawText table_text (split_on newline table_text))
      | LoadsRaised e => mkOutcome false (ErrorData (exn_msg e))
      end
  | Raise e => mkOutcome false (ErrorData (exn_msg e))
  end.

Record table_record (json : Type) := mkTable {
  page_number : nat;
  table_number : nat;
  structured_data : structured json;
  row_count : nat;
  column_count : nat
}.

(** [len(table[0]) if table else 0] *)
Definition columns (table : raw_table) : nat :=
  match table with
  | [] => 0
  | row :: _ => length row
  end.

Section Extract.

Variable json : Type.

(** [llm p k] is the model call made while table [k] of page [p] is
    processed: each table gets one call of its own. *)
Variable llm : nat -> nat -> str -> result str.
Variable json_loads : str -> loads_result json.

(** The body of [for table_num, table in enumerate(page_tables, 1)]. *)
Definition table_step (page_num : nat) (tables : list (table_record json))
  (entry : nat * raw_table) : list (table_record json) :=
  let (table_num, table) := entry in
  match table with
  | [] => tables
  | _ :: _ =>
      let table_text := _format_table_for_llm table in
      let structured_table :=
        _process_table_with_llm (llm page_num table_num) json_loads table_text in
      if success structured_table
      then tables ++ [mkTable page_num table_num
                              (outcome_data structured_table)
                              (length table) (columns table)]
      else tables
  end.

(** The loop over the pages; a page is what [page.extract_tables()] gives,
    or the exception it raises. *)
Fixpoint for_pages (tables : list (table_record json))
  (pages : list (nat * result (list raw_table)))
  : result (list (table_record json)) :=
  match pages with
  | [] => Ok tables
  | (page_num, page) :: rest =>
      page_tables <- page ;;
      for_pages (fold_left (table_step page_num) (enumerate 1 page_tables) tables)
                rest
  end.

(** [pdf] is what [pdfplumber.open] gives, or the exception it raises. *)
Definition async_extract (pdf : result (list (result (list raw_table))))
  : list (table_record json) :=
  match (pages <- pdf ;; for_pages [] (enumerate 1 pages)) with
  | Ok tables => tables
  | Raise _ => []
  end.

End Extract.

End TableExtractor.

(** ** visual_extractor.py *)

Module VisualExtractor.

Local Open Scope Z_scope.

(** Coordinates are numpy [int32] values. *)
Definition wrap32 (z : Z) : Z := (z + 2 ^ 31) mod 2 ^ 32 - 2 ^ 31.
Definition sub32 (a b : Z) : Z := wrap32 (a - b).
Definition abs32 (a : Z) : Z := wrap32 (Z.abs a).

(** The [float64] nearest to an integer. *)
Definition float_of_Z (z : Z) : float :=
  if z <? 0 then PrimFloat.opp (PrimFloat.of_uint63 (Uint63.of_Z (- z)))
  else PrimFloat.of_uint63 (Uint63.of_Z z).

Definition sum (l : list Z) : Z := fold_right Z.add 0 l.

(** [np.mean] of a list of integers: the sum, which [float64] holds exactly
    below 2^53, divided by the count; [nan] for the empty list. *)
Definition np_mean (l : list Z) : float :=
  PrimFloat.div (float_of_Z (sum l)) (float_of_Z (Z.of_nat (length l))).

Definition np_pi : float := 0x1.921fb54442d18p+1%float.

(** One detected segment, [line[0]]. *)
Record segment := mkSegment { x1 : Z; y1 : Z; x2 : Z; y2 : Z }.

(** A Python tuple of integers. *)
Definition tuple := list Z.

Definition tuple_of (l : segment) : tuple := [x1 l; y1 l; x2 l; y2 l].

(** [t[i]] *)
Definition getitem (t : tuple) (i : nat) : result Z :=
  match nth_error t i with
  | Some z => Ok z
  | None => Raise (mkExn IndexError (lit "tuple index out of range"))
  end.

Inductive graph_type := grid_chart | bar_chart | line_graph | unknown_graph_type.

(** [[abs(a[i] - b[i]) for a, b in zip(lines[:-1], lines[1:])]] *)
Fixpoint spacings_of (i : nat) (pairs : list (tuple * tuple)) : result (list Z) :=
  match pairs with
  | [] => Ok []
  | (a, b) :: rest =>
      za <- getitem a i ;;
      zb <- getitem b i ;;
      ds <- spacings_of i rest ;;
      Ok (abs32 (sub32 za zb) :: ds)
  end.

Definition spacings (i : nat) (lines : list tuple) : result (list Z) :=
  spacings_of i (combine (removelast lines) (tl lines)).

Definition close_spacing (v_spacing h_spacing : float) : bool :=
  PrimFloat.ltb (PrimFloat.abs (PrimFloat.sub v_spacing h_spacing)) 10%float.

Definition _determine_graph_type (horizontal_lines vertical_lines : list tuple)
  : graph_type :=
  match (vs <- spacings 0 vertical_lines ;;
         hs <- spacings 1 horizontal_lines ;;
         Ok (np_mean vs, np_mean hs)) with
  | Ok (v_spacing, h_spacing) =>
      if close_spacing v_spacing h_spacing then grid_chart
      else if (length horizontal_lines <? length vertical_lines)%nat then bar_chart
      else line_graph
  | Raise _ => unknown_graph_type
  end.

Section Detect.

(** [np.arctan2] on two [int32] values, a [float64]. *)
Variable arctan2 : Z -> Z -> float.

(** [abs(np.arctan2(y2-y1, x2-x1) * 180 / np.pi)] *)
Definition angle (l : segment) : float :=
  PrimFloat.abs
    (PrimFloat.div
       (PrimFloat.mul (arctan2 (sub32 (y2 l) (y1 l)) (sub32 (x2 l) (x1 l)))
                      180%float)
       np_pi).

Definition is_horizontal (l : segment) : bool :=
  PrimFloat.ltb (angle l) 10%float || PrimFloat.ltb 170%float (angle l).

Definition is_vertical (l : segment) : bool :=
  PrimFloat.ltb 80%float (angle l) && PrimFloat.ltb (angle l) 100%float.

(** The loop over the detected lines: the horizontal and the vertical ones. *)
Fixpoint orient (horizontal_lines vertical_lines : list tuple)
  (lines : list segment) : list tuple * list tuple :=
  match lines with
  | [] => (horizontal_lines, vertical_lines)
  | l :: rest =>
      if is_horizontal l
      then orient (horizontal_lines ++ [tuple_of l]) vertical_lines rest
      else if is_vertical l
      then orient horizontal_lines (vertical_lines ++ [tuple_of l]) rest
      else orient horizontal_lines vertical_lines rest
  end.

Record graph_data := mkGraphData {
  graph_type_of : graph_type;
  axes_horizontal : nat;
  axes_vertical : nat
}.

Inductive ocr_config := cfg_text | cfg_graph | cfg_table.

(** A rasterized page with what the libraries give on it: [np.array(img)]
    (its value does not matter here, only whether it raises), the result of
    grey conversion, edge detection and [cv2.HoughLinesP] ([None] when no
    line is found), and [pytesseract.image_to_string] under each
    configuration. *)
Record page := mkPage {
  np_array : result unit;
  hough_lines : result (option (list segment));
  image_to_string : ocr_config -> result str
}.

Definition _detect_and_process_graph (img : page) : option graph_data :=
  match hough_lines img with
  | Ok (Some lines) =>
      let (horizontal_lines, vertical_lines) := orient [] [] lines in
      if ((2 <=? length horizontal_lines) && (2 <=? length vertical_lines))%nat
      then Some (mkGraphData
                   (_determine_graph_type horizontal_lines vertical_lines)
                   (length horizontal_lines) (length vertical_lines))
      else None
  | Ok None => None
  | Raise _ => None
  end.

Definition _extract_text_from_region (img : page) (config : ocr_config) : str :=
  match image_to_string img config with
  | Ok s => strip s
  | Raise _ => []
  end.

Record graph_record := mkGraph {
  graph_page_number : nat;
  graph_graph_data : graph_data;
  graph_extracted_text : str;
  graph_kind : graph_type
}.

Record image_record := mkImage {
  image_page_number : nat;
  image_extracted_text : str;
  word_count : nat
}.

Record visual_statistics := mkVisualStatistics {
  total_images : nat;
  total_graphs : nat;
  total_text_extracted : nat;
  error : option str
}.

Record visual_elements := mkVisual {
  images : list image_record;
  graphs : list graph_record;
  statistics : visual_statistics
}.

Definition words (s : str) : nat := length (split s).

(** The body of [for page_num, img in enumerate(images, 1)]. *)
Definition page_step (ve : visual_elements) (entry : nat * page)
  : result visual_elements :=
  let (page_num, img) := entry in
  _ <- np_array img ;;
  match _detect_and_process_graph img with
  | Some graph_data =>
      let graph_text := _extract_text_from_region img cfg_graph in
      let st := statistics ve in
      Ok (mkVisual
            (images ve)
            (graphs ve ++ [mkGraph page_num graph_data graph_text
                                   (graph_type_of graph_data)])
            (mkVisualStatistics
               (total_images st)
               (total_graphs st + 1)%nat
               (total_text_extracted st + words graph_text)%nat
               (error st)))
  | None =>
      let ocr_text := _extract_text_from_region img cfg_text in
      if truthy (strip ocr_text)
      then
        let st := statistics ve in
        Ok (mkVisual
              (images ve ++ [mkImage page_num ocr_text (words ocr_text)])
              (graphs ve)
              (mkVisualStatistics
                 (total_images st + 1)%nat
                 (total_graphs st)
                 (total_text_extracted st + words ocr_text)%nat
                 (error st)))
      else Ok ve
  end.

Fixpoint for_pages (ve : visual_elements) (pages : list (nat * page))
  : result visual_elements :=
  match pages with
  | [] => Ok ve
  | entry :: rest => ve' <- page_step ve entry ;; for_pages ve' rest
  end.

Definition empty_result (err : option str) : visual_elements :=
  mkVisual [] [] (mkVisualStatistics 0 0 0 err).

(** [pdf] is what [convert_from_path] gives, or the exception it raises. *)
Definition async_extract (pdf : result (list page)) : visual_elements :=
  match (imgs <- pdf ;; for_pages (empty_result None) (enumerate 1 imgs)) with
  | Ok ve => ve
  | Raise e => empty_result (Some (exn_msg e))
  end.

End Detect.

End VisualExtractor.

(** ** app.py *)

Module App.

Inductive source_type := table | graph | image | text.

Record source := mkSource {
  type : source_type;
  page : option N;
  source_content : str
}.

(** A match of [page (\d+)] at the start of [s]: the digits of group 1. *)
Definition match_page (s : str) : option str :=
  if startswith (lit "page ") s
  then match takeWhile re_digit (skipn 5 s) with
       | [] => None
       | digits => Some digits
       end
  else None.

(** [re.search(r"page (\d+)", s)]: the leftmost match. *)
Fixpoint re_search_page (s : str) : option str :=
  match match_page s with
  | Some digits => Some digits
  | None =>
      match s with
      | [] => None
      | _ :: s' => re_search_page s'
      end
  end.

(** The body of [for doc in result.get("source_documents", [])]. *)
Definition source_of (source_text : str) : source :=
  let source_type :=
    if startswith (lit "[Table") source_text then table
    else if startswith (lit "[Graph") source_text then graph
    else if startswith (lit "[Image") source_text then image
    else text in
  let page_match := re_search_page source_text in
  let page_number :=
    match page_match with
    | Some digits => Some (int_of_digits digits)
    | None => None
    end in
  mkSource source_type page_number source_text.

Definition history := list (str * str).

(** What [chain.ainvoke] gives: the answer and the page contents of the
    retrieved documents, in rank order. *)
Record chain_result := mkChainResult {
  chain_answer : str;
  source_documents : list str
}.

Definition chain := str -> history -> result chain_result.

Record response := mkResponse {
  answer : str;
  sources : list source
}.

Definition not_ready : exn :=
  mkExn ValueError
        (lit "No PDF has been processed yet. Please upload a PDF first.").

(** [self_chain] is [self.chain]: [None] until a document is processed. *)
Definition ask_question (self_chain : option chain) (question : str)
  (chat_history : history) : result response :=
  match self_chain with
  | None => Raise not_ready
  | Some ainvoke =>
      r <- ainvoke question chat_history ;;
      Ok (mkResponse (chain_answer r) (map source_of (source_documents r)))
  end.

(** *** [_create_vectorstore]: the lines of the corpus *)

Definition graph_type_name (t : VisualExtractor.graph_type) : str :=
  match t with
  | VisualExtractor.grid_chart => lit "grid_chart"
  | VisualExtractor.bar_chart => lit "bar_chart"
  | VisualExtractor.line_graph => lit "line_graph"
  | VisualExtractor.unknown_graph_type => lit "unknown_graph_type"
  end.

(** [f"[{item['type'].capitalize()}] {item['text']}"] *)
Definition text_line (b : TextExtractor.block) : str :=
  match b with
  | TextExtractor.Paragraph t => lit "[Paragraph] " ++ t
  | TextExtractor.Heading t _ => lit "[Heading] " ++ t
  end.

(** [json_dumps] is [json.dumps] on the structured data. *)
Definition table_line (json : Type)
  (json_dumps : TableExtractor.structured json -> str)
  (table : TableExtractor.table_record json) : str :=
  (lit "[Table on page " ++ str_of_nat (TableExtractor.page_number table)
   ++ lit "] ")
  ++ json_dumps (TableExtractor.structured_data table).

Definition graph_line (graph : VisualExtractor.graph_record) : str :=
  ((lit "[Graph on page "
    ++ str_of_nat (VisualExtractor.graph_page_number graph) ++ lit "] ")
   ++ (lit "Type: " ++ graph_type_name (VisualExtractor.graph_kind graph)
       ++ lit ". "))
  ++ (lit "Extracted text: " ++ VisualExtractor.graph_extracted_text graph).

Definition image_line (image : VisualExtractor.image_record) : str :=
  (lit "[Image on page "
   ++ str_of_nat (VisualExtractor.image_page_number image) ++ lit "] ")
  ++ VisualExtractor.image_extracted_text image.

(** The list [texts]: the text blocks, then the tables, the graphs and the
    images. *)
Definition texts (json : Type)
  (json_dumps : TableExtractor.structured json -> str)
  (content : list TextExtractor.block)
  (tables : list (TableExtractor.table_record json))
  (visual : VisualExtractor.visual_elements) : list str :=
  map text_line content
  ++ map (table_line json_dumps) tables
  ++ map graph_line (VisualExtractor.graphs visual)
  ++ map image_line (VisualExtractor.images visual).

(** ["\n\n".join(texts)], the text given to the splitter. *)
Definition corpus (json : Type)
  (json_dumps : TableExtractor.structured json -> str)
  (content : list TextExtractor.block)
  (tables : list (TableExtractor.table_record json))
  (visual : VisualExtractor.visual_elements) : str :=
  join [newline; newline] (texts json_dumps content tables visual).

(** *** [validate_pdf] and [process_pdf] *)

Definition MAX_FILE_SIZE : N := 10 * 1024 * 1024.

(** [getsize] is the file system: the size of the file at a path, [None]
    when there is no file. [FileNotFoundError] is not a [ValueError]. *)
Definition validate_pdf (getsize : str -> option N) (file_path : str)
  : result unit :=
  match getsize file_path with
  | None =>
      Raise (mkExn OtherException (lit "PDF file not found: " ++ file_path))
  | Some file_size =>
      if negb (endswith (lit ".pdf") (lower file_path))
      then Raise (mkExn ValueError (lit "File must be a PDF"))
      else if (MAX_FILE_SIZE <? file_size)%N
      then Raise (mkExn ValueError
                    (lit "File size (" ++ str_of_N file_size
                     ++ lit " bytes) exceeds maximum allowed size ("
                     ++ str_of_N MAX_FILE_SIZE ++ lit " bytes)"))
      else Ok tt
  end.

Record metadata := mkMetadata {
  md_filename : str;
  md_processed_at : str;
  md_file_size : N;
  md_total_pages : nat
}.

Record extracted_data (json : Type) := mkExtracted {
  ed_metadata : metadata;
  ed_text : TextExtractor.text_result;
  ed_tables : list (TableExtractor.table_record json);
  ed_visual : VisualExtractor.visual_elements
}.

(** What the libraries and services give: the file system, the clock, the
    three readers of the document, the language model and the JSON codec,
    [FAISS.from_texts] over the chunks of the splitter, and
    [ConversationalRetrievalChain.from_llm] over the store. *)
Record capabilities (json store : Type) := mkCapabilities {
  getsize : str -> option N;
  basename : str -> str;
  now_iso : str;
  read_pages : str -> result (list str);
  open_tables : str -> result (list (result (list TableExtractor.raw_table)));
  llm : nat -> nat -> str -> result str;
  json_loads : str -> TableExtractor.loads_result json;
  json_dumps : TableExtractor.structured json -> str;
  convert_from_path : str -> result (list VisualExtractor.page);
  arctan2 : Z -> Z -> float;
  from_texts : str -> result store;
  from_llm : store -> result chain
}.

(** The attributes [self.vectorstore] and [self.chain]. *)
Record processor (store : Type) := mkProcessor {
  vectorstore : option store;
  chain_of : option chain
}.

(** The [try] block of [process_pdf], with the processor it leaves. *)
Definition process_body (json store : Type) (caps : capabilities json store)
  (self : processor store) (file_path : str)
  : result (extracted_data json) * processor store :=
  match (pages <- read_pages caps file_path ;;
         TextExtractor.async_extract pages) with
  | Raise e => (Raise e, self)
  | Ok text_content =>
      let table_content :=
        TableExtractor.async_extract (llm caps) (json_loads caps)
                                     (open_tables caps file_path) in
      let visual_content :=
        VisualExtractor.async_extract (arctan2 caps)
                                      (convert_from_path caps file_path) in
      match getsize caps file_path with
      | None =>
          (Raise (mkExn OtherException
                    (lit "[Errno 2] No such file or directory: " ++ file_path)),
           self)
      | Some file_size =>
          let extracted :=
            mkExtracted
              (mkMetadata (basename caps file_path) (now_iso caps) file_size
                          (TextExtractor.total_pages text_content))
              text_content table_content visual_content in
          match from_texts caps
                  (corpus (json_dumps caps)
                          (TextExtractor.content text_content)
                          table_content visual_content) with
          | Raise e => (Raise e, self)
          | Ok store_ =>
              match from_llm caps store_ with
              | Raise e => (Raise e, mkProcessor (Some store_) (chain_of self))
              | Ok chain_ =>
                  (Ok extracted, mkProcessor (Some store_) (Some chain_))
              end
          end
      end
  end.

Definition process_pdf (json store : Type) (caps : capabilities json store)
  (self : processor store) (file_path : str)
  : result (extracted_data json) * processor store :=
  match validate_pdf (getsize caps) file_path with
  | Raise e => (Raise e, self)
  | Ok _ =>
      match process_body caps self file_path with
      | (Ok extracted, self') => (Ok extracted, self')
      | (Raise e, self') =>
          (Raise (mkExn ValueError
                    (lit "Error processing PDF: " ++ exn_msg e)), self')
      end
  end.

End App.

(** ** server.py *)

Module Server.

Inductive http_result :=
| Response (r : App.response)
| HTTPException (status_code : nat) (detail : str).

(** The globals [pdf_processor] (its chain) and [chat_history]. *)
Record globals := mkGlobals {
  processor_chain : option App.chain;
  chat_history : App.history
}.

Definition chat_endpoint (g : globals) (payload_question : str)
  : http_result * globals :=
  let question := strip payload_question in
  if negb (truthy question)
  then (HTTPException 400 (lit "Question cannot be empty."), g)
  else
    match App.ask_question (processor_chain g) question (chat_history g) with
    | Ok response =>
        (Response response,
         mkGlobals (processor_chain g)
                   (chat_history g ++ [(question, App.answer response)]))
    | Raise e =>
        match exn_kind e with
        | ValueError => (HTTPException 400 (exn_msg e), g)
        | _ => (HTTPException 500 (exn_msg e), g)
        end
    end.

(** *** [upload_pdf_endpoint] *)

Definition MAX_SIZE : N := 10 * 1024 * 1024.

(** One turn of the loop that saves the upload: the length of the chunk
    [file.read] gives, and whether writing it raises. *)
Definition chunk := (N * result unit)%type.

Inductive saved :=
| Saved (file_size : N)
| TooLarge
| SaveFailed (e : exn).

(** [while chunk := await file.read(1024 * 1024)]: the reads are the
    elements of [chunks], in order; an empty chunk, or no element left,
    ends the file. *)
Fixpoint save_chunks (file_size : N) (chunks : list (result chunk)) : saved :=
  match chunks with
  | [] => Saved file_size
  | Raise e :: _ => SaveFailed e
  | Ok (len, written) :: rest =>
      if (len =? 0)%N then Saved file_size
      else
        let file_size := (file_size + len)%N in
        if (MAX_SIZE <? file_size)%N then TooLarge
        else
          match written with
          | Raise e => SaveFailed e
          | Ok _ => save_chunks file_size rest
          end
  end.

(** The upload and what the system gives around it: the name and the
    chunks of the file, [tempfile.mkdtemp], the time stamp, opening the
    temporary file, and writing the JSON file. *)
Record upload := mkUpload {
  up_filename : str;
  up_chunks : list (result chunk);
  up_mkdtemp : result str;
  up_stamp : str;
  up_open : result unit;
  up_save_json : result unit
}.

(** The file system once [size] bytes are written at [path]. *)
Definition with_file (json store : Type) (caps : App.capabilities json store)
  (path : str) (size : N) : App.capabilities json store :=
  App.mkCapabilities
    (fun p => if str_eqb p path then Some size else App.getsize caps p)
    (App.basename caps) (App.now_iso caps) (App.read_pages caps)
    (App.open_tables caps) (App.llm caps) (App.json_loads caps)
    (App.json_dumps caps) (App.convert_from_path caps) (App.arctan2 caps)
    (App.from_texts caps) (App.from_llm caps).

(** [table.get("metadata", {})]: the metadata of a table record. *)
Definition table_metadata (json : Type) (t : TableExtractor.table_record json)
  : list (str * nat) :=
  [(lit "row_count", TableExtractor.row_count t);
   (lit "column_count", TableExtractor.column_count t)].

(** [{str(table["page_number"]): table["row_count"] for table in table_stats
    if "page_number" in table}], as the list of its items. *)
Definition tables_by_page (table_stats : list (list (str * nat)))
  : list (str * nat) :=
  flat_map (fun table =>
              match dict_get (lit "page_number") table,
                    dict_get (lit "row_count") table with
              | Some page_number, Some row_count =>
                  [(str_of_nat page_number, row_count)]
              | _, _ => []
              end) table_stats.

Record content_summary := mkSummary {
  cs_metadata : App.metadata;
  cs_total_pages : nat;
  cs_total_words : nat;
  cs_total_paragraphs : nat;
  cs_total_headings : nat;
  cs_total_sections : nat;
  cs_hierarchy_depth : nat;
  cs_total_tables : nat;
  cs_tables_by_page : list (str * nat);
  cs_total_images : nat;
  cs_total_graphs : nat;
  cs_total_text_extracted : nat
}.

Definition summary (json : Type) (extracted : App.extracted_data json)
  : content_summary :=
  let text_stats := TextExtractor.text_statistics (App.ed_text extracted) in
  let table_stats := map (@table_metadata json) (App.ed_tables extracted) in
  let visual_stats := VisualExtractor.statistics (App.ed_visual extracted) in
  mkSummary
    (App.ed_metadata extracted)
    (App.md_total_pages (App.ed_metadata extracted))
    (TextExtractor.total_words text_stats)
    (TextExtractor.total_paragraphs text_stats)
    (TextExtractor.total_headings text_stats)
    (TextExtractor.total_sections text_stats)
    (TextExtractor.hierarchy_depth text_stats)
    (length table_stats)
    (tables_by_page table_stats)
    (VisualExtractor.total_images visual_stats)
    (VisualExtractor.total_graphs visual_stats)
    (VisualExtractor.total_text_extracted visual_stats).

Inductive upload_result :=
| Uploaded (s : content_summary)
| Refused (status_code : nat) (detail : str).

(** The globals [pdf_processor] and [chat_history]. *)
Record server_state (store : Type) := mkState {
  pdf_processor : App.processor store;
  history : App.history
}.

Definition upload_pdf_endpoint (json store : Type)
  (caps : App.capabilities json store) (up : upload)
  (st : server_state store) : upload_result * server_state store :=
  if negb (endswith (lit ".pdf") (lower (up_filename up)))
  then (Refused 400 (lit "Only PDF files are supported."), st)
  else
    match up_mkdtemp up with
    | Raise e => (Refused 500 (exn_msg e), st)
    | Ok tmp_dir =>
        let tmp_path :=
          path_join tmp_dir (lit "upload_" ++ up_stamp up ++ lit ".pdf") in
        match up_open up with
        | Raise e => (Refused 500 (exn_msg e), st)
        | Ok _ =>
            match save_chunks 0 (up_chunks up) with
            | SaveFailed e => (Refused 500 (exn_msg e), st)
            | TooLarge =>
                (Refused 413 (lit "File too large. Maximum size is 10MB."), st)
            | Saved file_size =>
                match App.process_pdf (with_file caps tmp_path file_size)
                                      (pdf_processor st) tmp_path with
                | (Raise e, self') =>
                    (Refused 500 (exn_msg e), mkState self' (history st))
                | (Ok extracted_data, self') =>
                    let st' := mkState self' [] in
                    match up_save_json up with
                    | Raise e => (Refused 500 (exn_msg e), st')
                    | Ok _ => (Uploaded (summary extracted_data), st')
                    end
                end
            end
        end
    end.

End Server.

(** ** Vocabulary of the statements *)

Module Vocabulary.

Import TextExtractor.

(** The heading rule on a line [l], with [digit] the digits that count for a
    numbered section: at most ten words, and upper case, or title case, or a
    digit followed by a period, or a final colon, or fewer than 100
    characters the first of which is an upper-case letter. *)
Definition heading_rule (digit : ascii -> bool) (l : str) : Prop :=
  length (split l) <= 10 /\
  (isupper l = true \/
   istitle l = true \/
   (exists d pre post, digit d = true /\ l = pre ++ d :: "."%char :: post) \/
   (exists pre, l = pre ++ [":"%char]) \/
   (length l < 100 /\ exists c rest, l = c :: rest /\ isupper_c c = true)).

Definition first_upper (l : str) : bool :=
  match l with
  | [] => false
  | c :: _ => isupper_c c
  end.

(** The value of [_is_heading] on a line that is not white space only. *)
Definition heading_test (l : str) : bool :=
  (length (split l) <=? 10) &&
  (isupper l || istitle l || numbered l || endswith (lit ":") l
   || ((length l <? 100) && first_upper l)).

(** The digits 1 to 9. *)
Definition digit19 (c : ascii) : bool := between 49 57 c.

(** The claim that [_is_heading] follows the rule on every non-empty line,
    with the rule read on the line as it is given and every digit counted. *)
Definition heading_rule_as_stated : Prop :=
  forall line, line <> [] ->
    (_is_heading line = Ok true <-> heading_rule re_digit line).


(** The three kinds of line of a page, as the loop tells them apart. *)
Definition is_blank_line (raw : str) : Prop := strip raw = [].

Definition is_heading_line (raw : str) : Prop :=
  strip raw <> [] /\ _is_heading (strip raw) = Ok true.

Definition is_body_line (raw : str) : Prop :=
  strip raw <> [] /\ _is_heading (strip raw) = Ok false.













(** A reply of 2000 opening brackets, and [json.loads] on the replies used
    here: it raises [RecursionError] on that one, and [JSONDecodeError] on
    the others, which are not JSON texts. *)
Definition deep_reply : str := repeat "["%char 2000.

Definition recursion_error : exn :=
  mkExn OtherException
        (lit "maximum recursion depth exceeded while decoding a JSON array from a unicode string").

Definition sample_loads (reply : str) : TableExtractor.loads_result unit :=
  if str_eqb reply deep_reply then TableExtractor.LoadsRaised recursion_error
  else TableExtractor.JSONDecodeError.

(** What the loop body adds for table [k] of page [p]. *)
Definition emitted (json : Type) (llm : nat -> nat -> str -> result str)
  (json_loads : str -> TableExtractor.loads_result json) (p k : nat)
  (table : TableExtractor.raw_table)
  : list (TableExtractor.table_record json) :=
  TableExtractor.table_step llm json_loads p [] (k, table).

(** What the loop over the tables of page [p] adds. *)
Definition page_emitted (json : Type) (llm : nat -> nat -> str -> result str)
  (json_loads : str -> TableExtractor.loads_result json) (p : nat)
  (page_tables : list TableExtractor.raw_table)
  : list (TableExtractor.table_record json) :=
  flat_map (fun e => emitted llm json_loads p (fst e) (snd e))
           (enumerate 1 page_tables).


(** The type and the page of the citation of a chunk. *)
Definition cites (chunk : str) (t : App.source_type) (pg : option N) : Prop :=
  App.type (App.source_of chunk) = t /\ App.page (App.source_of chunk) = pg.

(** The claim on citations, with "no bracketed prefix" read as: the chunk
    does not begin with a bracket. *)
Definition citation_as_stated : Prop :=
  (forall rest, cites (lit "[Table on page 7]" ++ rest) App.table (Some 7%N)) /\
  (forall rest, cites (lit "[Graph on page 3]" ++ rest) App.graph (Some 3%N)) /\
  (forall chunk, startswith (lit "[") chunk = false ->
                 cites chunk App.text None).

(** [chunk] has the word "page", a space and a digit somewhere. *)
Definition mentions_page (chunk : str) : Prop :=
  exists pre d post,
    chunk = pre ++ lit "page " ++ d :: post /\ re_digit d = true.

(** The number that a run of decimal digits writes, the first digit being
    the most significant one. *)
Fixpoint decimal (digits : str) : N :=
  match digits with
  | [] => 0%N
  | d :: rest =>
      ((N_of_ascii d - 48) * 10 ^ N.of_nat (length rest) + decimal rest)%N
  end.

(** The first occurrence in [chunk] of "page ", a space and a digit is
    right after [pre]; [digits] is the whole run of digits there, and
    [post] is what follows the run. *)
Definition first_page_mention (chunk pre digits post : str) : Prop :=
  chunk = pre ++ lit "page " ++ digits ++ post /\
  digits <> [] /\
  Forall (fun d => re_digit d = true) digits /\
  (forall c rest, post = c :: rest -> re_digit c = false) /\
  (forall pre' d post',
      chunk = pre' ++ lit "page " ++ d :: post' -> re_digit d = true ->
      length pre <= length pre').

(** The coordinate [i] of a line. *)
Definition coordinate (i : nat) (t : VisualExtractor.tuple) : Z := nth i t 0%Z.

(** The spacings between adjacent lines, on coordinate [i]. *)
Fixpoint adjacent_spacings (i : nat) (lines : list VisualExtractor.tuple)
  : list Z :=
  match lines with
  | [] => []
  | a :: rest =>
      match rest with
      | [] => []
      | b :: _ =>
          VisualExtractor.abs32
            (VisualExtractor.sub32 (coordinate i a) (coordinate i b))
          :: adjacent_spacings i rest
      end
  end.

(** Every line that is read has a coordinate [i]: no line is read when
    there are fewer than two. *)
Definition indexed (i : nat) (lines : list VisualExtractor.tuple) : Prop :=
  2 <= length lines -> Forall (fun t => i < length t) lines.









(** The statistics agree with the lists: the two counters are the lengths
    of the lists, and [total_text_extracted] is the number of pieces that
    [str.split()] gives on the texts of the graphs and of the images. *)
Definition consistent (ve : VisualExtractor.visual_elements) : Prop :=
  let st := VisualExtractor.statistics ve in
  VisualExtractor.total_graphs st = length (VisualExtractor.graphs ve) /\
  VisualExtractor.total_images st = length (VisualExtractor.images ve) /\
  VisualExtractor.total_text_extracted st
  = list_sum (map (fun g => length (split (VisualExtractor.graph_extracted_text g)))
                  (VisualExtractor.graphs ve))
    + list_sum (map (fun i => length (split (VisualExtractor.image_extracted_text i)))
                    (VisualExtractor.images ve)).

(** The OCR output of the page is empty after trimming. *)
Definition ocr_blank (pg : VisualExtractor.page) : Prop :=
  VisualExtractor._extract_text_from_region pg VisualExtractor.cfg_text = [].

(** The pages that give an image record: no graph, and some text. *)
Definition gives_image (arctan2 : Z -> Z -> float) (pg : VisualExtractor.page)
  : Prop :=
  VisualExtractor._detect_and_process_graph arctan2 pg = None /\
  VisualExtractor._extract_text_from_region pg VisualExtractor.cfg_text <> [].

(** No image record for page number [n]. *)
Definition no_image_of (n : nat) (ve : VisualExtractor.visual_elements) : Prop :=
  forall img, In img (VisualExtractor.images ve) ->
              VisualExtractor.image_page_number img <> n.

(** A sample page: two horizontal and two vertical segments, under an
    [arctan2] that is a quarter turn on vertical segments and zero on the
    others. *)
Definition sample_arctan2 (dy dx : Z) : float :=
  if (dx =? 0)%Z then 0x1.921fb54442d18p+0%float else 0%float.

Definition sample_lines : list VisualExtractor.segment :=
  [VisualExtractor.mkSegment 0 0 100 0; VisualExtractor.mkSegment 0 50 100 50;
   VisualExtractor.mkSegment 0 0 0 100; VisualExtractor.mkSegment 60 0 60 100].

Definition sample_page : VisualExtractor.page :=
  VisualExtractor.mkPage (Ok tt) (Ok (Some sample_lines))
                         (fun _ => Ok (lit "0 50 100")).

End Vocabulary.

Import Vocabulary.

(** ** Measures of the results *)

Module Measures.

Import TextExtractor.

Definition is_paragraph (b : block) : bool :=
  match b with Paragraph _ => true | Heading _ _ => false end.

Definition is_heading_block (b : block) : bool :=
  match b with Paragraph _ => false | Heading _ _ => true end.

(** The words of the paragraph blocks. *)
Definition paragraph_words (blocks : list block) : nat :=
  list_sum (map (fun b => length (split (block_text b)))
                (filter is_paragraph blocks)).

(** The statistics [st] are [st0] with the blocks [blocks] counted. *)
Definition counts (st0 st : statistics) (blocks : list block) : Prop :=
  total_words st = total_words st0 + paragraph_words blocks /\
  total_paragraphs st = total_paragraphs st0 + length (filter is_paragraph blocks) /\
  total_headings st = total_headings st0 + length (filter is_heading_block blocks) /\
  total_list_items st = total_list_items st0 /\
  total_sections st = total_sections st0 /\
  hierarchy_depth st = hierarchy_depth st0.

(** The blocks of one page. *)
Definition page_blocks (text : str) : list block :=
  match extract_page statistics0 text with
  | Ok r => fst r
  | Raise _ => []
  end.

(** The words of a line that goes to a paragraph: none for a blank line or
    a heading. *)
Definition body_words (raw : str) : nat :=
  match strip raw with
  | [] => 0
  | line =>
      match _is_heading line with
      | Ok false => length (split line)
      | _ => 0
      end
  end.

Definition page_body_words (text : str) : nat :=
  list_sum (map body_words (split_on newline text)).

(** A string with no white space at either end. *)
Definition trimmed (s : str) : Prop := strip s = s.

(** The first character, if any, is not white space. *)
Definition head_ok (s : str) : Prop :=
  match s with
  | [] => True
  | c :: _ => isspace c = false
  end.

(** Not empty, no white space at either end, no newline. *)
Definition tidy (s : str) : Prop :=
  s <> [] /\ head_ok s /\ head_ok (rev s) /\ ~ In newline s.

(** A block as the loop makes them: a text that is not empty, has no white
    space at its ends and no newline; for a heading, a line that
    [_is_heading] accepts, with the level [_determine_heading_level] gives. *)
Definition well_formed (b : block) : Prop :=
  block_text b <> [] /\ trimmed (block_text b) /\
  ~ In newline (block_text b) /\
  match b with
  | Paragraph _ => True
  | Heading line level =>
      _is_heading line = Ok true /\ level = _determine_heading_level line
  end.

(** Two states of the page loop with the same blocks and the same buffer. *)
Definition same_blocks (s1 s2 : page_state) : Prop :=
  page_content s1 = page_content s2 /\ paragraph_buffer s1 = paragraph_buffer s2.

(** The words of the buffered lines. *)
Definition buffer_words (s : page_state) : nat :=
  list_sum (map (fun l => length (split l)) (paragraph_buffer s)).

(** The blocks are well formed and the buffered lines tidy. *)
Definition tidy_state (s : page_state) : Prop :=
  Forall well_formed (page_content s) /\ Forall tidy (paragraph_buffer s).

(** The periods of a line. *)
Definition periods (l : str) : nat :=
  length (filter (fun c => Ascii.eqb c "."%char) l).

(** A cell with nothing to show: [None], or a string of white space. *)
Definition blank_cell (c : TableExtractor.cell) : Prop :=
  match c with
  | None => True
  | Some s => blank s = true
  end.

(** A cell without a newline. *)
Definition one_line_cell (c : TableExtractor.cell) : Prop :=
  match c with
  | None => True
  | Some s => ~ In newline s
  end.

(** Page order, then detection order. *)
Definition before (json : Type) (r1 r2 : TableExtractor.table_record json)
  : Prop :=
  TableExtractor.page_number r1 < TableExtractor.page_number r2 \/
  (TableExtractor.page_number r1 = TableExtractor.page_number r2 /\
   TableExtractor.table_number r1 < TableExtractor.table_number r2).

(** The image record of page number [n] for the page [pg]. *)
Definition image_of (n : nat) (pg : VisualExtractor.page)
  : VisualExtractor.image_record :=
  let ocr_text :=
    VisualExtractor._extract_text_from_region pg VisualExtractor.cfg_text in
  VisualExtractor.mkImage n ocr_text (length (split ocr_text)).

(** The graph record of page number [n] for the page [pg] and the graph
    data [gd] found on it. *)
Definition graph_of (n : nat) (pg : VisualExtractor.page)
  (gd : VisualExtractor.graph_data) : VisualExtractor.graph_record :=
  VisualExtractor.mkGraph n gd
    (VisualExtractor._extract_text_from_region pg VisualExtractor.cfg_graph)
    (VisualExtractor.graph_type_of gd).

(** The records made so far are for pages before number [n], in the order
    of the pages, and no more than [n - 1] in all. *)
Definition in_page_order (n : nat) (ve : VisualExtractor.visual_elements)
  : Prop :=
  StronglySorted lt (map VisualExtractor.image_page_number
                         (VisualExtractor.images ve)) /\
  StronglySorted lt (map VisualExtractor.graph_page_number
                         (VisualExtractor.graphs ve)) /\
  Forall (fun k => k < n)
         (map VisualExtractor.image_page_number (VisualExtractor.images ve)) /\
  Forall (fun k => k < n)
         (map VisualExtractor.graph_page_number (VisualExtractor.graphs ve)) /\
  length (VisualExtractor.images ve) + length (VisualExtractor.graphs ve) < n.

(** The value of a string of digits read after the value [a]. *)
Definition digits_value (a : N) (s : str) : N :=
  fold_left (fun acc c => (10 * acc + digit_value c)%N) s a.

(** The bytes of an upload: the lengths of its chunks up to the first
    empty one. *)
Fixpoint sent (chunks : list (result Server.chunk)) : N :=
  match chunks with
  | Ok (len, _) :: rest => if (len =? 0)%N then 0%N else (len + sent rest)%N
  | _ => 0%N
  end.

(** No read and no write raises. *)
Definition no_failure (c : result Server.chunk) : Prop :=
  exists len, c = Ok (len, Ok tt).


(** The corpus for the pages [pages] of the file at [file_path]. *)
Definition corpus_of (json store : Type) (caps : App.capabilities json store)
  (file_path : str) (pages : list str) : str :=
  App.corpus (App.json_dumps caps)
    (flat_map page_blocks pages)
    (TableExtractor.async_extract (App.llm caps) (App.json_loads caps)
                                  (App.open_tables caps file_path))
    (VisualExtractor.async_extract (App.arctan2 caps)
                                   (App.convert_from_path caps file_path)).

(** A document service whose reader fails on every file. *)
Definition failing_reader : App.capabilities unit unit :=
  App.mkCapabilities
    (fun _ => Some 4%N) (fun p => p) (lit "2024-01-01T00:00:00")
    (fun _ => Raise (mkExn OtherException (lit "EOF marker not found")))
    (fun _ => Ok []) (fun _ _ _ => Ok [])
    (fun _ => TableExtractor.JSONDecodeError) (fun _ => [])
    (fun _ => Ok []) (fun _ _ => 0%float)
    (fun _ => Ok tt)
    (fun _ => Ok (fun _ _ => Ok (App.mkChainResult [] []))).

End Measures.

Import Measures.

(** * Facts *)

Unset Implicit Arguments.

(** ** Strings *)

Module PyFacts.

Lemma dropWhile_nil_iff s : dropWhile isspace s = [] <-> blank s = true.
Proof.
  induction s as [|c s IH]; simpl.
  - tauto.
  - destruct (isspace c); simpl.
    + exact IH.
    + split; discriminate.
Qed.

Lemma blank_dropWhile s : blank (dropWhile isspace s) = blank s.
Proof.
  induction s as [|c s IH]; simpl; [reflexivity|].
  destruct (isspace c) eqn:E; simpl; [exact IH | now rewrite E].
Qed.

Lemma blank_app s t : blank (s ++ t) = blank s && blank t.
Proof. apply forallb_app. Qed.

Lemma blank_rev s : blank (rev s) = blank s.
Proof.
  induction s as [|c s IH]; simpl; [reflexivity|].
  rewrite blank_app, IH. simpl. rewrite andb_true_r. apply andb_comm.
Qed.

Lemma rev_nil_iff (A : Type) (l : list A) : rev l = [] <-> l = [].
Proof.
  split; intro H.
  - rewrite <- (rev_involutive l), H. reflexivity.
  - now subst.
Qed.

Lemma strip_nil_iff s : strip s = [] <-> blank s = true.
Proof.
  unfold strip, rstrip, lstrip.
  etransitivity; [apply rev_nil_iff|].
  etransitivity; [apply dropWhile_nil_iff|].
  rewrite blank_rev, blank_dropWhile. tauto.
Qed.

Lemma blank_strip s : blank (strip s) = blank s.
Proof.
  unfold strip, rstrip, lstrip.
  now rewrite blank_rev, blank_dropWhile, blank_rev, blank_dropWhile.
Qed.

Lemma strip_nonblank s : strip s <> [] -> blank (strip s) = false.
Proof.
  intro H. rewrite blank_strip. destruct (blank s) eqn:E; [|reflexivity].
  exfalso. apply H. now apply strip_nil_iff.
Qed.

Lemma dropWhile_head s c rest :
  dropWhile isspace s = c :: rest -> isspace c = false.
Proof.
  induction s as [|a s IH]; simpl; [discriminate|].
  destruct (isspace a) eqn:E; [exact IH|].
  intro H. injection H as <- _. exact E.
Qed.

Lemma dropWhile_idempotent s :
  dropWhile isspace (dropWhile isspace s) = dropWhile isspace s.
Proof.
  destruct (dropWhile isspace s) as [|c rest] eqn:E; [reflexivity|].
  apply dropWhile_head in E. simpl. now rewrite E.
Qed.

Lemma dropWhile_snoc s c :
  isspace c = false ->
  dropWhile isspace (s ++ [c]) = dropWhile isspace s ++ [c].
Proof.
  intro Hc. induction s as [|a s IH]; simpl.
  - now rewrite Hc.
  - destruct (isspace a); [exact IH | reflexivity].
Qed.

Lemma strip_idempotent s : strip (strip s) = strip s.
Proof.
  unfold strip, rstrip, lstrip.
  destruct (dropWhile isspace s) as [|c u] eqn:E; [reflexivity|].
  apply dropWhile_head in E. cbn [rev].
  rewrite (dropWhile_snoc _ c E), rev_app_distr. cbn [rev app dropWhile].
  rewrite E. cbn [rev]. rewrite rev_involutive.
  rewrite (dropWhile_snoc _ c E), dropWhile_idempotent.
  now rewrite rev_app_distr.
Qed.

Lemma startswith_iff p s : startswith p s = true <-> exists post, s = p ++ post.
Proof.
  revert s. induction p as [|a p IH]; intros s; simpl.
  - split; [intros _; now exists s | reflexivity].
  - destruct s as [|c s].
    + split; [discriminate | intros [post H]; discriminate].
    + rewrite andb_true_iff, Ascii.eqb_eq, IH. split.
      * intros [-> [post ->]]. now exists post.
      * intros [post H]. injection H as -> ->. split; [reflexivity | now exists post].
Qed.

Lemma endswith_iff suf s : endswith suf s = true <-> exists pre, s = pre ++ suf.
Proof.
  unfold endswith. rewrite startswith_iff. split.
  - intros [post H]. exists (rev post).
    rewrite <- (rev_involutive s), H, rev_app_distr, rev_involutive. reflexivity.
  - intros [pre ->]. exists (rev pre). apply rev_app_distr.
Qed.

Lemma contains_iff sub s :
  contains sub s = true <-> exists pre post, s = pre ++ sub ++ post.
Proof.
  induction s as [|c s IH].
  - simpl. rewrite orb_false_r, startswith_iff. split.
    + intros [post H]. now exists [], post.
    + intros [pre [post H]]. destruct pre; [now exists post|discriminate].
  - cbn [contains]. rewrite orb_true_iff, startswith_iff, IH. split.
    + intros [[post H] | [pre [post H]]].
      * now exists [], post.
      * exists (c :: pre), post. now rewrite H.
    + intros [pre [post H]]. destruct pre as [|a pre].
      * left. now exists post.
      * right. injection H as _ H. now exists pre, post.
Qed.

Lemma isupper_single c : isupper [c] = isupper_c c.
Proof. destruct c as [[] [] [] [] [] [] [] []]; reflexivity. Qed.

End PyFacts.

(** ** The text structurer *)

Module TextFacts.

Import TextExtractor PyFacts.

Lemma is_heading_nonblank line :
  blank line = false -> _is_heading line = Ok (heading_test (strip line)).
Proof.
  intro Hb.
  assert (Hs : strip line <> []).
  { intro H. apply strip_nil_iff in H. congruence. }
  unfold _is_heading. destruct line as [|a line]; [discriminate|].
  cbn [truthy negb].
  destruct (strip (a :: line)) as [|c l] eqn:E; [contradiction|].
  unfold heading_test, first_upper, and_, or_, bind, getitem0.
  rewrite isupper_single.
  destruct (length (split (c :: l)) <=? 10); [|reflexivity].
  destruct (isupper (c :: l)); [reflexivity|].
  destruct (istitle (c :: l)); [reflexivity|].
  destruct (numbered (c :: l)); [reflexivity|].
  destruct (endswith (lit ":") (c :: l)); [reflexivity|].
  destruct (length (c :: l) <? 100); [|reflexivity].
  destruct (isupper_c c); reflexivity.
Qed.

Lemma is_heading_blank line :
  line <> [] -> blank line = true ->
  _is_heading line = Raise (mkExn IndexError (lit "string index out of range")).
Proof.
  intros Hne Hb. apply strip_nil_iff in Hb.
  unfold _is_heading. destruct line as [|a line]; [contradiction|].
  cbn [truthy negb]. rewrite Hb. reflexivity.
Qed.

Lemma digit19_iff d : In d (lit "123456789") <-> digit19 d = true.
Proof.
  split.
  - intro H. simpl in H.
    repeat (destruct H as [<- | H]; [reflexivity|]). contradiction.
  - destruct d as [[] [] [] [] [] [] [] []]; intro H;
      try discriminate H; simpl; tauto.
Qed.

Lemma numbered_iff l :
  numbered l = true <->
  exists d pre post, digit19 d = true /\ l = pre ++ d :: "."%char :: post.
Proof.
  unfold numbered. rewrite existsb_exists. split.
  - intros [d [Hin H]]. apply andb_true_iff in H as [_ H].
    apply contains_iff in H as [pre [post H]].
    exists d, pre, post. split; [now apply digit19_iff | exact H].
  - intros [d [pre [post [Hd H]]]]. exists d. split; [now apply digit19_iff|].
    apply andb_true_iff. split.
    + destruct d as [[] [] [] [] [] [] [] []]; try discriminate Hd; reflexivity.
    + apply contains_iff. now exists pre, post.
Qed.

Lemma heading_test_iff l :
  heading_test l = true <-> heading_rule digit19 l.
Proof.
  unfold heading_test, heading_rule.
  rewrite andb_true_iff, !orb_true_iff, andb_true_iff.
  rewrite Nat.leb_le, Nat.ltb_lt.
  rewrite numbered_iff, (endswith_iff (lit ":") l).
  assert (Hf : first_upper l = true <->
               exists c rest, l = c :: rest /\ isupper_c c = true).
  { destruct l as [|c rest]; simpl.
    - split; [discriminate | intros [c [rest [H _]]]; discriminate].
    - split.
      + intro H. now exists c, rest.
      + intros [c' [rest' [H H']]]. now injection H as -> ->. }
  rewrite Hf. simpl lit. tauto.
Qed.

(** C2, the failing input: on a line of one space the guard for the empty
    line does not apply, the line is stripped to the empty string, and the
    test of its first character raises [IndexError], where the claim wants
    [False]; on the empty string the result is [False]. *)
Theorem is_heading_whitespace_raises :
  _is_heading (lit " ")
  = Raise (mkExn IndexError (lit "string index out of range"))
  /\ _is_heading (lit "") = Ok false.
Proof. split; reflexivity. Qed.

(** C4, the claim as stated fails: ["v0.5"] has one word and a digit
    followed by a period, and is not a heading, since only the digits 1 to
    9 are looked for. *)
Lemma heading_rule_as_stated_fails : ~ heading_rule_as_stated.
Proof.
  intro H. specialize (H (lit "v0.5")).
  assert (Hne : lit "v0.5" <> []) by discriminate.
  apply H in Hne. destruct Hne as [_ Hr].
  assert (Hh : _is_heading (lit "v0.5") = Ok true).
  { apply Hr. split.
    - simpl. lia.
    - right. right. left.
      exists "0"%char, (lit "v"), (lit "5"). split; reflexivity. }
  discriminate Hh.
Qed.

(** C4, amended: on a line that is not white space only, [_is_heading]
    returns, and returns [True] exactly when the stripped line satisfies the
    heading rule with the digits 1 to 9. *)
Theorem is_heading_rule line :
  blank line = false ->
  exists b, _is_heading line = Ok b /\
            (b = true <-> heading_rule digit19 (strip line)).
Proof.
  intro Hb. exists (heading_test (strip line)). split.
  - now apply is_heading_nonblank.
  - apply heading_test_iff.
Qed.

Lemma is_heading_rule_witness :
  blank (lit "Summary:") = false /\
  exists b, _is_heading (lit "Summary:") = Ok b /\
            (b = true <-> heading_rule digit19 (strip (lit "Summary:"))).
Proof.
  split; [reflexivity | apply (is_heading_rule (lit "Summary:")); reflexivity].
Defined.

(** *** The loop over the lines of a page *)

Lemma is_heading_stripped raw :
  strip raw <> [] -> exists b, _is_heading (strip raw) = Ok b.
Proof.
  intro H. eexists. apply is_heading_nonblank. now apply strip_nonblank.
Qed.

Lemma line_kinds raw :
  is_blank_line raw \/ is_heading_line raw \/ is_body_line raw.
Proof.
  unfold is_blank_line, is_heading_line, is_body_line.
  destruct (strip raw) as [|c l] eqn:E; [now left | right].
  assert (Hne : strip raw <> []) by (rewrite E; discriminate).
  destruct (is_heading_stripped raw Hne) as [b Hb]. rewrite E in Hb.
  destruct b; [left | right]; (split; [discriminate | exact Hb]).
Qed.

Lemma line_step_blank s raw :
  is_blank_line raw -> line_step s raw = Ok (flush s).
Proof. unfold is_blank_line, line_step. now intros ->. Qed.

Lemma line_step_heading s raw :
  is_heading_line raw ->
  line_step s raw = Ok (add_heading (flush s) (strip raw)).
Proof.
  unfold is_heading_line, line_step. intros [Hne Hh].
  destruct (strip raw) as [|c l] eqn:E; [contradiction|].
  cbn [truthy negb]. now rewrite Hh.
Qed.

Lemma line_step_body s raw :
  is_body_line raw -> line_step s raw = Ok (buffer_line s (strip raw)).
Proof.
  unfold is_body_line, line_step. intros [Hne Hh].
  destruct (strip raw) as [|c l] eqn:E; [contradiction|].
  cbn [truthy negb]. now rewrite Hh.
Qed.

Lemma line_step_total s raw : exists s', line_step s raw = Ok s'.
Proof.
  destruct (line_kinds raw) as [H | [H | H]]; eexists.
  - now apply line_step_blank.
  - now apply line_step_heading.
  - now apply line_step_body.
Qed.

Lemma for_lines_total lines : forall s, exists s', for_lines s lines = Ok s'.
Proof.
  induction lines as [|raw lines IH]; intro s; simpl.
  - now exists s.
  - destruct (line_step_total s raw) as [s1 ->]. simpl. apply IH.
Qed.







Lemma flush_buffer s : paragraph_buffer (flush s) = [].
Proof. unfold flush. destruct (paragraph_buffer s) eqn:E; [exact E | reflexivity]. Qed.


Lemma flush_nonempty c b st :
  b <> [] ->
  flush (mkPageState c b st)
  = mkPageState (c ++ [Paragraph (join (lit " ") b)]) []
                (count_paragraph st (join (lit " ") b)).
Proof. destruct b; [contradiction | reflexivity]. Qed.















End TextFacts.

(** ** Lists with positions *)

Module EnumFacts.

Section Keyed.

Variables (A B : Type) (key : B -> nat) (q : B -> bool) (f : nat -> A -> list B).

Hypothesis key_f : forall i x r, In r (f i x) -> key r = i.






End Keyed.

End EnumFacts.

(** ** The table structurer *)

Module TableFacts.

Import TableExtractor.

Section Extract.

Variable json : Type.
Variable llm : nat -> nat -> str -> result str.
Variable json_loads : str -> loads_result json.

Local Abbreviation emitted := (Vocabulary.emitted llm json_loads).
Local Abbreviation page_emitted := (Vocabulary.page_emitted llm json_loads).
Local Abbreviation table_step := (TableExtractor.table_step llm json_loads).

Lemma table_step_emitted p tables k table :
  table_step p tables (k, table) = tables ++ emitted p k table.
Proof.
  unfold Vocabulary.emitted, TableExtractor.table_step.
  destruct table as [|row rest]; [now rewrite app_nil_r|].
  destruct (success _); [reflexivity | now rewrite app_nil_r].
Qed.

Lemma emitted_key p k table r :
  In r (emitted p k table) -> page_number r = p /\ table_number r = k.
Proof.
  unfold Vocabulary.emitted, TableExtractor.table_step.
  destruct table as [|row rest]; [contradiction|].
  destruct (success _); simpl; [|contradiction].
  intros [<- | []]. now split.
Qed.

Lemma fold_table_step p entries : forall tables,
  fold_left (table_step p) entries tables
  = tables ++ flat_map (fun e => emitted p (fst e) (snd e)) entries.
Proof.
  induction entries as [|[k table] entries IH]; intro tables;
    cbn [fold_left flat_map fst snd].
  - now rewrite app_nil_r.
  - rewrite IH, table_step_emitted. now rewrite <- app_assoc.
Qed.

Lemma for_pages_emitted doc : forall s tables,
  for_pages llm json_loads tables (enumerate s (map Ok doc))
  = Ok (tables
        ++ flat_map (fun e => page_emitted (fst e) (snd e)) (enumerate s doc)).
Proof.
  induction doc as [|page_tables doc IH]; intros s tables;
    cbn [map enumerate for_pages flat_map fst snd bind].
  - now rewrite app_nil_r.
  - rewrite fold_table_step, IH. unfold Vocabulary.page_emitted.
    now rewrite <- app_assoc.
Qed.

Lemma async_extract_emitted doc :
  async_extract llm json_loads (Ok (map Ok doc))
  = flat_map (fun e => page_emitted (fst e) (snd e)) (enumerate 1 doc).
Proof.
  unfold async_extract. simpl. now rewrite for_pages_emitted.
Qed.

Lemma page_emitted_key p page_tables r :
  In r (page_emitted p page_tables) -> page_number r = p.
Proof.
  unfold Vocabulary.page_emitted. intro H.
  apply in_flat_map in H as [[k t] [_ H]].
  now apply emitted_key in H.
Qed.



End Extract.







End TableFacts.

(** ** Citations and the question endpoint *)

Module AppFacts.

Import App PyFacts.

Lemma match_page_none_iff s :
  match_page s = None <->
  forall d post, s = lit "page " ++ d :: post -> re_digit d = false.
Proof.
  unfold match_page. destruct (startswith (lit "page ") s) eqn:E.
  - apply startswith_iff in E as [rest ->].
    change (skipn 5 (lit "page " ++ rest)) with rest.
    destruct rest as [|d post]; simpl takeWhile.
    + split; [|reflexivity]. intros _ d post H.
      apply app_inv_head in H. discriminate H.
    + destruct (re_digit d) eqn:Ed.
      * split; [discriminate|]. intro H.
        specialize (H d post eq_refl). congruence.
      * split; [|reflexivity]. intros _ d' post' H.
        apply app_inv_head in H. now injection H as <- _.
  - split; [|reflexivity]. intros _ d post ->.
    assert (H : startswith (lit "page ") (lit "page " ++ d :: post) = true)
      by (apply startswith_iff; now eexists).
    congruence.
Qed.

Lemma re_search_page_none_iff s :
  re_search_page s = None <-> ~ mentions_page s.
Proof.
  unfold mentions_page. induction s as [|c s IH].
  - split.
    + intros _ [pre [d [post [H _]]]]. destruct pre; discriminate H.
    + reflexivity.
  - cbn [re_search_page].
    destruct (match_page (c :: s)) as [ds|] eqn:E.
    + split; [discriminate|]. intro H. exfalso.
      assert (Hn : match_page (c :: s) = None); [|congruence].
      apply match_page_none_iff. intros d post Hd.
      destruct (re_digit d) eqn:Ed; [|reflexivity].
      exfalso. apply H. now exists [], d, post.
    + rewrite IH. split.
      * intros H [pre [d [post [Hs Hd]]]]. destruct pre as [|a pre].
        -- rewrite (proj1 (match_page_none_iff (c :: s)) E d post Hs) in Hd.
           discriminate Hd.
        -- injection Hs as _ Hs. apply H. now exists pre, d, post.
      * intros H [pre [d [post [Hs Hd]]]]. apply H.
        exists (c :: pre), d, post. split; [now rewrite Hs | exact Hd].
Qed.

Lemma unbracketed_is_text chunk :
  startswith (lit "[") chunk = false -> type (source_of chunk) = text.
Proof.
  destruct chunk as [|c chunk]; intro H; [reflexivity|].
  change (lit "[") with ["["%char] in H. cbn [startswith] in H.
  rewrite andb_true_r in H.
  assert (E : forall p, startswith ("["%char :: p) (c :: chunk) = false).
  { intro p. cbn [startswith]. now rewrite H. }
  unfold source_of.
  change (lit "[Table") with ("["%char :: lit "Table").
  change (lit "[Graph") with ("["%char :: lit "Graph").
  change (lit "[Image") with ("["%char :: lit "Image").
  rewrite !E. reflexivity.
Qed.

Lemma re_search_page_cons c s :
  re_search_page (c :: s)
  = match match_page (c :: s) with
    | Some digits => Some digits
    | None => re_search_page s
    end.
Proof. reflexivity. Qed.

Lemma re_search_page_skip s : forall pre,
  (forall pre1 pre2, pre = pre1 ++ pre2 -> pre2 <> [] ->
                     match_page (pre2 ++ s) = None) ->
  re_search_page (pre ++ s) = re_search_page s.
Proof.
  induction pre as [|c pre IH]; intro H; [reflexivity|].
  change ((c :: pre) ++ s) with (c :: pre ++ s).
  rewrite re_search_page_cons.
  pose proof (H [] (c :: pre) eq_refl ltac:(discriminate)) as E.
  change ((c :: pre) ++ s) with (c :: pre ++ s) in E. rewrite E.
  apply IH. intros pre1 pre2 -> Hne.
  exact (H (c :: pre1) pre2 eq_refl Hne).
Qed.

Lemma takeWhile_run digits post :
  Forall (fun d => re_digit d = true) digits ->
  (forall c rest, post = c :: rest -> re_digit c = false) ->
  takeWhile re_digit (digits ++ post) = digits.
Proof.
  intros Hd Hp. induction Hd as [|d digits Hdigit _ IH]; cbn [app takeWhile].
  - destruct post as [|c rest]; [reflexivity|].
    cbn [takeWhile]. now rewrite (Hp c rest eq_refl).
  - now rewrite Hdigit, IH.
Qed.

Lemma re_search_page_first chunk pre digits post :
  first_page_mention chunk pre digits post ->
  re_search_page chunk = Some digits.
Proof.
  intros [-> [Hne [Hd [Hp Hfirst]]]].
  rewrite re_search_page_skip.
  - assert (Hm : match_page (lit "page " ++ digits ++ post) = Some digits).
    { unfold match_page.
      change (startswith (lit "page ") (lit "page " ++ digits ++ post))
        with true.
      change (skipn 5 (lit "page " ++ digits ++ post)) with (digits ++ post).
      rewrite (takeWhile_run digits post Hd Hp).
      destruct digits; [contradiction | reflexivity]. }
    change (lit "page " ++ digits ++ post)
      with ("p"%char :: lit "age " ++ digits ++ post) in *.
    rewrite re_search_page_cons. now rewrite Hm.
  - intros pre1 pre2 -> Hne2. apply match_page_none_iff. intros d post' E.
    destruct (re_digit d) eqn:Ed; [exfalso | reflexivity].
    assert (Hl : length (pre1 ++ pre2) <= length pre1).
    { apply (Hfirst pre1 d post'); [|exact Ed].
      rewrite <- app_assoc. now rewrite E. }
    rewrite length_app in Hl. destruct pre2; [contradiction | simpl in Hl; lia].
Qed.

Lemma int_of_digits_from digits : forall acc,
  fold_left (fun acc c => (10 * acc + digit_value c)%N) digits acc
  = (acc * 10 ^ N.of_nat (length digits) + decimal digits)%N.
Proof.
  induction digits as [|d digits IH]; intro acc.
  - cbn [fold_left length decimal]. change (10 ^ N.of_nat 0)%N with 1%N. lia.
  - cbn [fold_left decimal]. rewrite IH.
    change (length (d :: digits)) with (S (length digits)).
    rewrite Nat2N.inj_succ, N.pow_succ_r'. unfold digit_value, code. lia.
Qed.

Lemma int_of_digits_decimal digits : int_of_digits digits = decimal digits.
Proof.
  unfold int_of_digits. rewrite int_of_digits_from. lia.
Qed.

(** C3, the claim as stated fails: a chunk of plain text that mentions a
    page gets that page, not null. *)
Lemma citation_as_stated_fails : ~ citation_as_stated.
Proof.
  intros [_ [_ H]].
  destruct (H (lit "see page 12 for details") eq_refl) as [_ Hp].
  discriminate Hp.
Qed.

(** C3, amended: the sources of an answer are the citations of the
    retrieved chunks in order; a chunk beginning [[Table on page 7]] is
    cited as a table of page 7, one beginning [[Graph on page 3]] as a graph
    of page 3, and a chunk that does not begin with a bracket is cited as
    text, with page null exactly when it mentions no page. When a chunk
    mentions a page, its page is the number written by the whole run of
    digits at the first mention, for a run that [int] converts (at most
    4300 digits). *)
Theorem citation_of_chunk :
  (forall ainvoke question chat_history r,
      ainvoke question chat_history = Ok r ->
      ask_question (Some ainvoke) question chat_history
      = Ok (mkResponse (chain_answer r) (map source_of (source_documents r)))) /\
  (forall rest, cites (lit "[Table on page 7]" ++ rest) table (Some 7%N)) /\
  (forall rest, cites (lit "[Graph on page 3]" ++ rest) graph (Some 3%N)) /\
  (forall chunk, startswith (lit "[") chunk = false ->
     type (source_of chunk) = text /\
     (page (source_of chunk) = None <-> ~ mentions_page chunk)) /\
  (forall chunk pre digits post,
      first_page_mention chunk pre digits post ->
      length digits <= 4300 ->
      page (source_of chunk) = Some (decimal digits)).
Proof.
  split; [|split; [|split; [|split]]].
  - intros ainvoke question chat_history r H. unfold ask_question.
    now rewrite H.
  - intro rest. split; reflexivity.
  - intro rest. split; reflexivity.
  - intros chunk H. split; [now apply unbracketed_is_text|].
    rewrite <- re_search_page_none_iff. unfold source_of. simpl.
    destruct (re_search_page chunk); split; intro; congruence.
  - intros chunk pre digits post H _. unfold source_of. cbn [page].
    rewrite (re_search_page_first chunk pre digits post H).
    now rewrite int_of_digits_decimal.
Qed.

(** C9: with no document processed, [ask_question] raises the [ValueError]
    that says so, for every question and history, and the chat endpoint
    answers with status 400 and leaves the history as it was. *)
Theorem ask_before_upload_not_ready :
  forall question chat_history,
    ask_question None question chat_history = Raise not_ready /\
    exn_kind not_ready = ValueError /\
    exists detail,
      Server.chat_endpoint (Server.mkGlobals None chat_history) question
      = (Server.HTTPException 400 detail, Server.mkGlobals None chat_history).
Proof.
  intros question chat_history. split; [reflexivity | split; [reflexivity|]].
  unfold Server.chat_endpoint.
  destruct (truthy (strip question)); simpl; eexists; reflexivity.
Qed.

End AppFacts.

(** ** The visual structurer *)

Module VisualFacts.

Import VisualExtractor PyFacts.

(** *** The graph sub-type *)

Lemma getitem_ok t i : i < length t -> getitem t i = Ok (coordinate i t).
Proof.
  intro H. unfold getitem, coordinate.
  now rewrite (nth_error_nth' t 0%Z H).
Qed.


Lemma spacings_cons2 i a b rest :
  spacings i (a :: b :: rest)
  = (za <- getitem a i ;;
     zb <- getitem b i ;;
     ds <- spacings i (b :: rest) ;;
     Ok (abs32 (sub32 za zb) :: ds)).
Proof. reflexivity. Qed.

Lemma spacings_single i a : spacings i [a] = Ok [].
Proof. reflexivity. Qed.

Lemma spacings_ok i rest : forall a,
  Forall (fun t => i < length t) (a :: rest) ->
  spacings i (a :: rest) = Ok (adjacent_spacings i (a :: rest)).
Proof.
  induction rest as [|b rest IH]; intros a H.
  - reflexivity.
  - inversion H as [|? ? Ha Hrest]; subst.
    inversion Hrest as [|? ? Hb _]; subst.
    rewrite spacings_cons2, (getitem_ok a i Ha), (getitem_ok b i Hb).
    cbn [bind]. pose proof (IH b Hrest) as E. unfold tuple in *.
    rewrite E. reflexivity.
Qed.



Lemma indexed_spacings i lines :
  indexed i lines -> spacings i lines = Ok (adjacent_spacings i lines).
Proof.
  unfold indexed. destruct lines as [|a [|b rest]]; intro H.
  - reflexivity.
  - reflexivity.
  - apply spacings_ok. apply H. simpl. lia.
Qed.

Lemma determine_indexed horizontal_lines vertical_lines :
  indexed 0 vertical_lines -> indexed 1 horizontal_lines ->
  _determine_graph_type horizontal_lines vertical_lines
  = if close_spacing (np_mean (adjacent_spacings 0 vertical_lines))
                     (np_mean (adjacent_spacings 1 horizontal_lines))
    then grid_chart
    else if length horizontal_lines <? length vertical_lines then bar_chart
    else line_graph.
Proof.
  intros Hv Hh. unfold _determine_graph_type.
  apply indexed_spacings in Hv, Hh. rewrite Hv, Hh. reflexivity.
Qed.








(** *** Horizontal and vertical lines *)

Lemma sf10 : Prim2SF 10%float = S754_finite false 5629499534213120 (-49).
Proof. vm_compute. reflexivity. Qed.

Lemma sf80 : Prim2SF 80%float = S754_finite false 5629499534213120 (-46).
Proof. vm_compute. reflexivity. Qed.

Lemma sf100 : Prim2SF 100%float = S754_finite false 7036874417766400 (-46).
Proof. vm_compute. reflexivity. Qed.

Lemma sf170 : Prim2SF 170%float = S754_finite false 5981343255101440 (-45).
Proof. vm_compute. reflexivity. Qed.

Lemma above_80_not_below_10 a :
  PrimFloat.ltb 80%float a = true -> PrimFloat.ltb a 10%float = false.
Proof.
  rewrite !FloatAxioms.ltb_spec. unfold SFltb. rewrite sf80, sf10.
  destruct (Prim2SF a) as [s|s| |s m e]; cbn [SFcompare];
    try (destruct s; congruence); try congruence.
  destruct s; try congruence.
  destruct (Z.compare_spec (-46) e); destruct (Z.compare_spec e (-49));
    try lia; try congruence.
Qed.

Lemma below_100_not_above_170 a :
  PrimFloat.ltb a 100%float = true -> PrimFloat.ltb 170%float a = false.
Proof.
  rewrite !FloatAxioms.ltb_spec. unfold SFltb. rewrite sf100, sf170.
  destruct (Prim2SF a) as [s|s| |s m e]; cbn [SFcompare];
    try (destruct s; congruence); try congruence.
  destruct s; try congruence.
  destruct (Z.compare_spec (-45) e); destruct (Z.compare_spec e (-46));
    try lia; try congruence.
Qed.

Section Detect.

Variable arctan2 : Z -> Z -> float.

Local Abbreviation is_horizontal := (is_horizontal arctan2).
Local Abbreviation is_vertical := (is_vertical arctan2).
Local Abbreviation detect := (_detect_and_process_graph arctan2).
Local Abbreviation page_step := (VisualExtractor.page_step arctan2).
Local Abbreviation for_pages := (VisualExtractor.for_pages arctan2).
Local Abbreviation async_extract := (VisualExtractor.async_extract arctan2).
Local Abbreviation gives_image := (Vocabulary.gives_image arctan2).

(** A line is not both horizontal and vertical. *)
Lemma vertical_not_horizontal l :
  is_vertical l = true -> is_horizontal l = false.
Proof.
  unfold VisualExtractor.is_vertical, VisualExtractor.is_horizontal.
  intro H. apply andb_true_iff in H as [H80 H100].
  now rewrite (above_80_not_below_10 _ H80), (below_100_not_above_170 _ H100).
Qed.

Lemma orient_filter lines : forall hs vs,
  orient arctan2 hs vs lines
  = (hs ++ map tuple_of (filter is_horizontal lines),
     vs ++ map tuple_of (filter is_vertical lines)).
Proof.
  induction lines as [|l lines IH]; intros hs vs; cbn [orient filter map].
  - now rewrite !app_nil_r.
  - destruct (is_horizontal l) eqn:Eh.
    + destruct (is_vertical l) eqn:Ev.
      * apply vertical_not_horizontal in Ev. congruence.
      * rewrite IH. cbn [map]. now rewrite <- app_assoc.
    + destruct (is_vertical l) eqn:Ev; rewrite IH; cbn [map];
        [now rewrite <- app_assoc | reflexivity].
Qed.

Lemma detect_graph pg lines :
  hough_lines pg = Ok (Some lines) ->
  2 <= length (filter is_horizontal lines) ->
  2 <= length (filter is_vertical lines) ->
  exists gd,
    detect pg = Some gd /\
    axes_horizontal gd = length (filter is_horizontal lines) /\
    axes_vertical gd = length (filter is_vertical lines).
Proof.
  intros Hl Hh Hv. unfold _detect_and_process_graph.
  rewrite Hl, orient_filter. cbn [app]. rewrite !length_map.
  apply Nat.leb_le in Hh, Hv. rewrite Hh, Hv. cbn [andb].
  eexists. split; [reflexivity | split; reflexivity].
Qed.

Lemma tuples_indexed i (lines : list segment) :
  i < 4 -> indexed i (map tuple_of lines).
Proof.
  intros Hi _. apply Forall_map, Forall_forall. intros l _. exact Hi.
Qed.

(** The type of a detected graph is one of the three charts: the segments
    have their four coordinates. *)
Lemma detected_type_known pg gd :
  detect pg = Some gd -> graph_type_of gd <> unknown_graph_type.
Proof.
  unfold _detect_and_process_graph.
  destruct (hough_lines pg) as [[lines|]|e]; try discriminate.
  rewrite orient_filter. cbn [app].
  destruct (_ && _); [|discriminate].
  intro H. injection H as <-. cbn [graph_type_of].
  rewrite determine_indexed by (apply tuples_indexed; lia).
  destruct (close_spacing _ _); [discriminate|].
  destruct (_ <? _); discriminate.
Qed.

(** *** The loop over the pages *)

Lemma page_step_images ve n pg ve' :
  page_step ve (n, pg) = Ok ve' ->
  forall img, In img (images ve') ->
    In img (images ve) \/ (image_page_number img = n /\ gives_image pg).
Proof.
  unfold VisualExtractor.page_step, Vocabulary.gives_image.
  destruct (np_array pg) as [u|e]; cbn [bind]; [|discriminate].
  destruct (detect pg) as [gd|].
  - intro H. injection H as <-. cbn [images]. now left.
  - destruct (truthy (strip (_extract_text_from_region pg cfg_text))) eqn:E.
    + intro H. injection H as <-. cbn [images]. intros img Hin.
      apply in_app_or in Hin as [Hin | [<- | []]]; [now left | right].
      cbn [image_page_number]. split; [reflexivity | split; [reflexivity|]].
      intro Hnil. rewrite Hnil in E. discriminate E.
    + intro H. injection H as <-. now left.
Qed.

Lemma for_pages_images pages : forall s ve ve',
  for_pages ve (enumerate s pages) = Ok ve' ->
  forall img, In img (images ve') ->
    In img (images ve) \/
    exists i pg, nth_error pages i = Some pg /\
                 image_page_number img = s + i /\ gives_image pg.
Proof.
  induction pages as [|pg pages IH]; intros s ve ve' H img Hin;
    cbn [enumerate VisualExtractor.for_pages] in H.
  - injection H as <-. now left.
  - destruct (page_step ve (s, pg)) as [ve1|e] eqn:E1; cbn [bind] in H;
      [|discriminate].
    destruct (IH (S s) ve1 ve' H img Hin) as [Hin1 | [i [pg' [Hn [Hp Hg]]]]].
    + destruct (page_step_images ve s pg ve1 E1 img Hin1) as [Hin0 | [Hp Hg]];
        [now left | right].
      exists 0, pg. split; [reflexivity | split; [lia | exact Hg]].
    + right. exists (S i), pg'. split; [exact Hn | split; [lia | exact Hg]].
Qed.

Lemma async_extract_images pages img :
  In img (images (async_extract (Ok pages))) ->
  exists i pg, nth_error pages i = Some pg /\
               image_page_number img = S i /\ gives_image pg.
Proof.
  unfold VisualExtractor.async_extract. cbn [bind].
  destruct (for_pages (empty_result None) (enumerate 1 pages)) as [ve|e] eqn:E.
  - intro Hin.
    destruct (for_pages_images pages 1 _ ve E img Hin) as [H | H];
      [contradiction | exact H].
  - intros [].
Qed.

Lemma page_step_graphs ve n pg ve' :
  page_step ve (n, pg) = Ok ve' ->
  (forall g, In g (graphs ve) -> In g (graphs ve')) /\
  (forall gd, detect pg = Some gd ->
     exists g, In g (graphs ve') /\ graph_page_number g = n /\
               graph_graph_data g = gd).
Proof.
  unfold VisualExtractor.page_step.
  destruct (np_array pg) as [u|e]; cbn [bind]; [|discriminate].
  destruct (detect pg) as [gd|].
  - intro H. injection H as <-. cbn [graphs]. split.
    + intros g Hg. apply in_or_app. now left.
    + intros gd' Hgd. injection Hgd as <-. eexists. split.
      * apply in_or_app. right. left. reflexivity.
      * split; reflexivity.
  - destruct (truthy (strip (_extract_text_from_region pg cfg_text)));
      intro H; injection H as <-; (split; [trivial | discriminate]).
Qed.

Lemma for_pages_graphs pages : forall s ve ve',
  for_pages ve (enumerate s pages) = Ok ve' ->
  (forall g, In g (graphs ve) -> In g (graphs ve')) /\
  (forall i pg gd, nth_error pages i = Some pg -> detect pg = Some gd ->
     exists g, In g (graphs ve') /\ graph_page_number g = s + i /\
               graph_graph_data g = gd).
Proof.
  induction pages as [|pg pages IH]; intros s ve ve' H;
    cbn [enumerate VisualExtractor.for_pages] in H.
  - injection H as <-. split; [trivial|]. intros [|i]; discriminate.
  - destruct (page_step ve (s, pg)) as [ve1|e] eqn:E1; cbn [bind] in H;
      [|discriminate].
    destruct (page_step_graphs ve s pg ve1 E1) as [Hkeep1 Hnew1].
    destruct (IH (S s) ve1 ve' H) as [Hkeep Hnew]. split.
    + intros g Hg. apply Hkeep, Hkeep1, Hg.
    + intros [|i] pg' gd Hn Hgd.
      * injection Hn as <-. destruct (Hnew1 gd Hgd) as [g [Hg [Hp Hd]]].
        exists g. split; [apply Hkeep, Hg | split; [lia | exact Hd]].
      * destruct (Hnew i pg' gd Hn Hgd) as [g [Hg [Hp Hd]]].
        exists g. split; [exact Hg | split; [lia | exact Hd]].
Qed.

Lemma for_pages_total pages : forall s ve,
  Forall (fun pg => np_array pg = Ok tt) pages ->
  exists ve', for_pages ve (enumerate s pages) = Ok ve'.
Proof.
  induction pages as [|pg pages IH]; intros s ve H;
    cbn [enumerate VisualExtractor.for_pages].
  - now exists ve.
  - inversion H as [|? ? Hpg Hrest]; subst.
    assert (E : exists ve1, page_step ve (s, pg) = Ok ve1).
    { unfold VisualExtractor.page_step. rewrite Hpg. cbn [bind].
      destruct (detect pg); [eexists; reflexivity|].
      destruct (truthy _); eexists; reflexivity. }
    destruct E as [ve1 ->]. cbn [bind]. apply IH, Hrest.
Qed.

Lemma no_image_unless_gives_image pages n pg :
  nth_error pages n = Some pg ->
  ~ gives_image pg ->
  no_image_of (S n) (async_extract (Ok pages)).
Proof.
  intros Hn Hno img Hin Hp.
  destruct (async_extract_images pages img Hin) as [i [pg' [Hi [Hpi Hg]]]].
  assert (i = n) by lia. subst i.
  rewrite Hn in Hi. injection Hi as <-. exact (Hno Hg).
Qed.

Lemma words_sum_app (A : Type) (f : A -> nat) l x :
  list_sum (map f (l ++ [x])) = list_sum (map f l) + f x.
Proof. rewrite map_app, list_sum_app. simpl. lia. Qed.

Lemma page_step_consistent ve entry ve' :
  consistent ve -> page_step ve entry = Ok ve' -> consistent ve'.
Proof.
  destruct entry as [n pg]. unfold consistent, VisualExtractor.page_step.
  cbv zeta. intros [Hg [Hi Ht]].
  destruct (np_array pg) as [u|e]; cbn [bind]; [|discriminate].
  destruct (detect pg) as [gd|].
  - intro H. injection H as <-.
    cbn [statistics graphs images total_graphs total_images
         total_text_extracted].
    rewrite length_app, words_sum_app. cbn [length graph_extracted_text].
    unfold words. lia.
  - destruct (truthy (strip (_extract_text_from_region pg cfg_text)));
      intro H; injection H as <-; [|now repeat split].
    cbn [statistics graphs images total_graphs total_images
         total_text_extracted].
    rewrite length_app, words_sum_app. cbn [length image_extracted_text].
    unfold words. lia.
Qed.

Lemma for_pages_consistent entries : forall ve ve',
  consistent ve -> for_pages ve entries = Ok ve' -> consistent ve'.
Proof.
  induction entries as [|entry entries IH]; intros ve ve' Hc H;
    cbn [VisualExtractor.for_pages] in H.
  - now injection H as <-.
  - destruct (page_step ve entry) as [ve1|e] eqn:E1; cbn [bind] in H;
      [|discriminate].
    exact (IH ve1 ve' (page_step_consistent ve entry ve1 Hc E1) H).
Qed.

Lemma empty_result_consistent err : consistent (empty_result err).
Proof. repeat split. Qed.

End Detect.

(** C7: a page with at least two horizontal and at least two vertical
    detected lines is classified as a graph and has no image record, and
    has a graph record when no exception ends the extraction; a page whose
    OCR output is empty after trimming has no image record. *)
Theorem graph_page_never_image arctan2 pages n pg :
  nth_error pages n = Some pg ->
  (forall lines,
      hough_lines pg = Ok (Some lines) ->
      2 <= length (filter (is_horizontal arctan2) lines) ->
      2 <= length (filter (is_vertical arctan2) lines) ->
      (exists gd, _detect_and_process_graph arctan2 pg = Some gd) /\
      no_image_of (S n) (async_extract arctan2 (Ok pages)) /\
      (Forall (fun p => np_array p = Ok tt) pages ->
       exists g, In g (graphs (async_extract arctan2 (Ok pages))) /\
                 graph_page_number g = S n)) /\
  (ocr_blank pg -> no_image_of (S n) (async_extract arctan2 (Ok pages))).
Proof.
  intro Hn. split.
  - intros lines Hl Hh Hv.
    destruct (detect_graph arctan2 pg lines Hl Hh Hv) as [gd [Hgd _]].
    split; [now exists gd | split].
    + apply (no_image_unless_gives_image arctan2 pages n pg Hn).
      intros [Hnone _]. congruence.
    + intro Hok. unfold async_extract. cbn [bind].
      destruct (for_pages_total arctan2 pages 1 (empty_result None) Hok)
        as [ve E].
      rewrite E.
      destruct (proj2 (for_pages_graphs arctan2 pages 1 _ ve E) n pg gd Hn Hgd)
        as [g [Hg [Hp _]]].
      now exists g.
  - intro Hb.
    apply (no_image_unless_gives_image arctan2 pages n pg Hn).
    intros [_ Hsome]. exact (Hsome Hb).
Qed.

Lemma graph_page_never_image_witness :
  (exists gd, _detect_and_process_graph sample_arctan2 sample_page = Some gd) /\
  no_image_of 1 (async_extract sample_arctan2 (Ok [sample_page])) /\
  (Forall (fun p => np_array p = Ok tt) [sample_page] ->
   exists g, In g (graphs (async_extract sample_arctan2 (Ok [sample_page]))) /\
             graph_page_number g = 1).
Proof.
  apply (proj1 (graph_page_never_image sample_arctan2 [sample_page] 0
                  sample_page eq_refl) sample_lines).
  - reflexivity.
  - vm_compute. apply le_n.
  - vm_compute. apply le_n.
Defined.

(** C10: in every result of [async_extract], [total_graphs] is the number
    of graph records, [total_images] the number of image records, and
    [total_text_extracted] the sum of the word counts of their extracted
    texts. *)
Theorem statistics_consistent arctan2 pdf :
  consistent (async_extract arctan2 pdf).
Proof.
  unfold async_extract. destruct pdf as [imgs|e]; cbn [bind].
  - destruct (for_pages arctan2 (empty_result None) (enumerate 1 imgs))
      as [ve|e] eqn:E.
    + exact (for_pages_consistent arctan2 _ _ ve
               (empty_result_consistent None) E).
    + apply empty_result_consistent.
  - apply empty_result_consistent.
Qed.

End VisualFacts.

(** * More of the code *)

(** ** Strings, continued *)

Module StringFacts.

Import PyFacts.

Lemma split_ws_app_space cur a sp b :
  isspace sp = true ->
  split_ws cur (a ++ sp :: b) = split_ws cur a ++ split b.
Proof.
  intro Hsp. revert cur. induction a as [|c a IH]; intro cur; cbn [app split_ws].
  - rewrite Hsp. destruct cur; reflexivity.
  - destruct (isspace c).
    + destruct cur; [apply IH | cbn [app]; f_equal; apply IH].
    + apply IH.
Qed.

Lemma words_join ls :
  length (split (join (lit " ") ls))
  = list_sum (map (fun l => length (split l)) ls).
Proof.
  induction ls as [|p rest IH]; [reflexivity|].
  destruct rest as [|q rest].
  - cbn [join map list_sum fold_right]. lia.
  - change (join (lit " ") (p :: q :: rest))
      with (p ++ " "%char :: join (lit " ") (q :: rest)).
    unfold split at 1. rewrite split_ws_app_space by reflexivity.
    rewrite length_app. fold (split p). rewrite IH. reflexivity.
Qed.

Lemma In_dropWhile c s : In c (dropWhile isspace s) -> In c s.
Proof.
  induction s as [|a s IH]; cbn [dropWhile]; [trivial|].
  destruct (isspace a); [intro H; right; now apply IH | trivial].
Qed.

Lemma In_strip c s : In c (strip s) -> In c s.
Proof.
  unfold strip, rstrip, lstrip. intro H.
  apply in_rev, In_dropWhile, in_rev in H. now apply In_dropWhile.
Qed.

Lemma split_on_nonempty sep s : split_on sep s <> [].
Proof.
  induction s as [|c s IH]; cbn [split_on]; [discriminate|].
  destruct (Ascii.eqb c sep); [discriminate|].
  destruct (split_on sep s); discriminate.
Qed.

Lemma split_on_no_sep sep s piece :
  In piece (split_on sep s) -> ~ In sep piece.
Proof.
  revert piece. induction s as [|c s IH]; intros piece; cbn [split_on].
  - intros [<- | []] [].
  - destruct (Ascii.eqb_spec c sep) as [->|Hc].
    + intros [<- | H]; [intros [] | now apply IH].
    + destruct (split_on sep s) as [|w ws] eqn:E.
      * intros [<- | []] [H | []]. now apply Hc.
      * intros [<- | H].
        -- intros [H | H]; [now apply Hc|]. apply (IH w); [now left | exact H].
        -- apply IH. now right.
Qed.

(** [split] undoes [join] on pieces that have no separator. *)
Lemma split_on_join sep parts :
  parts <> [] ->
  Forall (fun p => ~ In sep p) parts ->
  split_on sep (join [sep] parts) = parts.
Proof.
  assert (Hone : forall p, ~ In sep p -> split_on sep p = [p]).
  { induction p as [|c p IH]; intro H; cbn [split_on]; [reflexivity|].
    destruct (Ascii.eqb_spec c sep) as [->|Hc]; [exfalso; apply H; now left|].
    rewrite IH; [reflexivity | intro Hin; apply H; now right]. }
  assert (Hcons : forall p s, ~ In sep p ->
             split_on sep (p ++ sep :: s) = p :: split_on sep s).
  { induction p as [|c p IH]; intros s H; cbn [app split_on].
    - now rewrite Ascii.eqb_refl.
    - destruct (Ascii.eqb_spec c sep) as [->|Hc]; [exfalso; apply H; now left|].
      rewrite IH; [reflexivity | intro Hin; apply H; now right]. }
  induction parts as [|p rest IH]; [contradiction|]. intros _ H.
  inversion H as [|? ? Hp Hrest]; subst.
  destruct rest as [|q rest]; [now apply Hone|].
  change (join [sep] (p :: q :: rest)) with (p ++ sep :: join [sep] (q :: rest)).
  rewrite Hcons by exact Hp. f_equal. apply IH; [discriminate | exact Hrest].
Qed.

Lemma head_ok_dropWhile s : head_ok s -> dropWhile isspace s = s.
Proof. destruct s as [|c s]; [reflexivity|]. cbn [head_ok dropWhile]. now intros ->. Qed.

Lemma dropWhile_head_ok s : head_ok (dropWhile isspace s).
Proof.
  destruct (dropWhile isspace s) as [|c w] eqn:E; [exact I|].
  exact (dropWhile_head s c w E).
Qed.

Lemma strip_last_ok s : head_ok (rev (strip s)).
Proof.
  unfold strip, rstrip, lstrip. rewrite rev_involutive. apply dropWhile_head_ok.
Qed.

Lemma strip_head_ok s : head_ok (strip s).
Proof.
  unfold strip, rstrip, lstrip.
  destruct (dropWhile isspace s) as [|c u] eqn:E; [exact I|].
  apply dropWhile_head in E. cbn [rev].
  rewrite (dropWhile_snoc _ c E), rev_app_distr. exact E.
Qed.

Lemma strip_fixed s : head_ok s -> head_ok (rev s) -> strip s = s.
Proof.
  intros Hh Hl. unfold strip, rstrip, lstrip.
  rewrite (head_ok_dropWhile s Hh), (head_ok_dropWhile (rev s) Hl).
  apply rev_involutive.
Qed.

Lemma head_ok_app a b : a <> [] -> head_ok a -> head_ok (a ++ b).
Proof. destruct a; [contradiction | trivial]. Qed.

Lemma join_nonempty sep p rest : p <> [] -> join sep (p :: rest) <> [].
Proof.
  intro Hp. destruct rest; cbn [join]; [exact Hp|].
  destruct p; [contradiction | discriminate].
Qed.

(** A line with no white space at its ends and no newline. *)
Lemma join_tidy ls :
  ls <> [] ->
  Forall tidy ls ->
  tidy (join (lit " ") ls).
Proof.
  induction ls as [|p rest IH]; [contradiction|]. intros _ H.
  inversion H as [|? ? Hp Hrest]; subst.
  destruct rest as [|q rest]; [exact Hp|].
  change (join (lit " ") (p :: q :: rest))
    with (p ++ " "%char :: join (lit " ") (q :: rest)).
  destruct Hp as [Hne [Hh [Hl Hn]]].
  destruct (IH ltac:(discriminate) Hrest) as [Jne [Jh [Jl Jn]]].
  repeat split.
  - destruct p; [contradiction | discriminate].
  - now apply head_ok_app.
  - rewrite rev_app_distr. cbn [rev]. rewrite <- app_assoc.
    apply head_ok_app; [|exact Jl].
    intro E. apply Jne. apply (f_equal (@rev ascii)) in E.
    now rewrite rev_involutive in E.
  - intro Hin. apply in_app_or in Hin as [Hin | [Hin | Hin]].
    + now apply Hn.
    + discriminate Hin.
    + now apply Jn.
Qed.

Lemma tidy_strip raw :
  strip raw <> [] -> ~ In newline raw -> tidy (strip raw).
Proof.
  intros Hne Hn. repeat split.
  - exact Hne.
  - apply strip_head_ok.
  - apply strip_last_ok.
  - intro Hin. apply Hn. now apply In_strip.
Qed.

Lemma tidy_trimmed s : tidy s -> trimmed s.
Proof. intros [_ [Hh [Hl _]]]. now apply strip_fixed. Qed.

End StringFacts.

(** ** The text structurer, continued *)

Module TextCoverage.

Import TextExtractor PyFacts StringFacts TextFacts.

(** *** The blocks do not depend on the statistics *)

Lemma flush_same s1 s2 : same_blocks s1 s2 -> same_blocks (flush s1) (flush s2).
Proof.
  destruct s1 as [c1 b1 st1], s2 as [c2 b2 st2]. unfold same_blocks.
  cbn [page_content paragraph_buffer]. intros [-> ->].
  destruct b2; [now split|]. rewrite !flush_nonempty by discriminate.
  now split.
Qed.

Lemma line_step_same s1 s2 raw t1 :
  same_blocks s1 s2 -> line_step s1 raw = Ok t1 ->
  exists t2, line_step s2 raw = Ok t2 /\ same_blocks t1 t2.
Proof.
  intros Hs H. destruct (line_kinds raw) as [K | [K | K]].
  - rewrite (line_step_blank s1 raw K) in H. injection H as <-.
    rewrite (line_step_blank s2 raw K). eexists. split; [reflexivity | now apply flush_same].
  - rewrite (line_step_heading s1 raw K) in H. injection H as <-.
    rewrite (line_step_heading s2 raw K). eexists. split; [reflexivity|].
    destruct (flush_same s1 s2 Hs) as [Hc Hb].
    unfold same_blocks, add_heading. cbn [page_content paragraph_buffer].
    now rewrite Hc, Hb.
  - rewrite (line_step_body s1 raw K) in H. injection H as <-.
    rewrite (line_step_body s2 raw K). eexists. split; [reflexivity|]. destruct Hs as [Hc Hb].
    unfold same_blocks, buffer_line. cbn [page_content paragraph_buffer].
    now rewrite Hc, Hb.
Qed.

Lemma for_lines_same lines : forall s1 s2 t1,
  same_blocks s1 s2 -> for_lines s1 lines = Ok t1 ->
  exists t2, for_lines s2 lines = Ok t2 /\ same_blocks t1 t2.
Proof.
  induction lines as [|raw lines IH]; intros s1 s2 t1 Hs H; cbn [for_lines] in *.
  - injection H as <-. now exists s2.
  - destruct (line_step s1 raw) as [u1|e] eqn:E; cbn [bind] in H; [|discriminate].
    destruct (line_step_same s1 s2 raw u1 Hs E) as [u2 [E2 Hu]].
    rewrite E2. cbn [bind]. exact (IH u1 u2 t1 Hu H).
Qed.

Lemma page_lines_total st lines :
  exists blocks st', page_lines st lines = Ok (blocks, st').
Proof.
  unfold page_lines.
  destruct (for_lines_total lines (mkPageState [] [] st)) as [s ->].
  cbn [bind]. now eexists _, _.
Qed.

Lemma page_lines_same st1 st2 lines blocks st1' :
  page_lines st1 lines = Ok (blocks, st1') ->
  exists st2', page_lines st2 lines = Ok (blocks, st2').
Proof.
  unfold page_lines. intro H.
  destruct (for_lines (mkPageState [] [] st1) lines) as [t1|e] eqn:E;
    cbn [bind] in H; [|discriminate].
  injection H as <- _.
  destruct (for_lines_same lines (mkPageState [] [] st1)
              (mkPageState [] [] st2) t1 (conj eq_refl eq_refl) E)
    as [t2 [E2 Ht]].
  rewrite E2. cbn [bind]. apply flush_same in Ht. destruct Ht as [-> _].
  now eexists.
Qed.

Lemma extract_page_blocks st text :
  exists st', extract_page st text = Ok (page_blocks text, st').
Proof.
  unfold page_blocks, extract_page.
  destruct (page_lines_total statistics0 (split_on newline text))
    as [blocks [st0' H0]].
  rewrite H0. cbn [fst].
  exact (page_lines_same statistics0 st _ blocks st0' H0).
Qed.

Lemma for_pages_blocks pages : forall content st,
  exists st',
    for_pages content st pages
    = Ok (content ++ flat_map page_blocks pages, st').
Proof.
  induction pages as [|text pages IH]; intros content st;
    cbn [for_pages flat_map].
  - exists st. now rewrite app_nil_r.
  - destruct text as [|c text]; cbn [truthy negb].
    + change (page_blocks []) with (@nil block). cbn [app]. apply IH.
    + destruct (extract_page_blocks st (c :: text)) as [st1 ->].
      cbn [bind fst snd].
      destruct (IH (content ++ page_blocks (c :: text)) st1) as [st' ->].
      exists st'. now rewrite <- app_assoc.
Qed.

Lemma text_extract_composes_blocks pages :
  exists st,
    async_extract pages
    = Ok (mkTextResult (flat_map page_blocks pages) st (length pages)).
Proof.
  unfold async_extract.
  destruct (for_pages_blocks pages [] statistics0) as [st ->].
  cbn [bind fst snd app]. now exists st.
Qed.

Lemma for_pages_read_ok texts : forall content st,
  for_pages_read content st (map Ok texts) = for_pages content st texts.
Proof.
  induction texts as [|text texts IH]; intros content st;
    cbn [map for_pages_read for_pages bind]; [reflexivity|].
  destruct (negb (truthy text)); [apply IH|].
  destruct (extract_page st text) as [r|e]; cbn [bind]; [apply IH | reflexivity].
Qed.

Lemma for_pages_read_fails texts e post : forall content st,
  for_pages_read content st (map Ok texts ++ Raise e :: post) = Raise e.
Proof.
  induction texts as [|text texts IH]; intros content st;
    cbn [map app for_pages_read bind]; [reflexivity|].
  destruct text as [|c text]; cbn [truthy negb]; [apply IH|].
  destruct (extract_page_blocks st (c :: text)) as [st1 ->].
  cbn [bind]. apply IH.
Qed.

(** X1: [async_extract] raises only what the reader raises: the exception
    of [PdfReader] on the file or, when a page fails in [extract_text],
    the exception of the first such page. When every page is read it
    returns: the loop strips each line and skips the blank ones before it
    calls [_is_heading], so the exception of [_is_heading] on a line of
    white space never occurs. The content is then the blocks of the pages
    one after the other, in page order; a page with no text adds none;
    [total_pages] counts every page. *)
Theorem text_extract_composes :
  (forall e, async_extract_file (Raise e) = Raise e) /\
  (forall texts e post,
      async_extract_file (Ok (map Ok texts ++ Raise e :: post)) = Raise e) /\
  (forall texts,
      exists st,
        async_extract_file (Ok (map Ok texts))
        = Ok (mkTextResult (flat_map page_blocks texts) st (length texts)) /\
        async_extract texts
        = Ok (mkTextResult (flat_map page_blocks texts) st (length texts))).
Proof.
  split; [reflexivity | split].
  - intros texts e post. unfold async_extract_file. cbn [bind].
    now rewrite for_pages_read_fails.
  - intro texts. unfold async_extract_file, async_extract. cbn [bind].
    rewrite for_pages_read_ok.
    destruct (for_pages_blocks texts [] statistics0) as [st ->].
    cbn [bind fst snd app]. exists st. now rewrite length_map.
Qed.

(** *** The statistics count the blocks *)

Lemma paragraph_words_app bs cs :
  paragraph_words (bs ++ cs) = paragraph_words bs + paragraph_words cs.
Proof.
  unfold paragraph_words. now rewrite filter_app, map_app, list_sum_app.
Qed.

Lemma counts_refl st : counts st st [].
Proof. unfold counts, paragraph_words. cbn. repeat split; lia. Qed.

Lemma counts_paragraph st0 st blocks text :
  counts st0 st blocks ->
  counts st0 (count_paragraph st text) (blocks ++ [Paragraph text]).
Proof.
  unfold counts. intros [Hw [Hp [Hh [Hl [Hs Hd]]]]].
  rewrite paragraph_words_app, !filter_app, !length_app.
  unfold paragraph_words in *. cbn. unfold split in *. repeat split; lia.
Qed.

Lemma counts_heading st0 st blocks text level :
  counts st0 st blocks ->
  counts st0 (count_heading st) (blocks ++ [Heading text level]).
Proof.
  unfold counts. intros [Hw [Hp [Hh [Hl [Hs Hd]]]]].
  rewrite paragraph_words_app, !filter_app, !length_app.
  unfold paragraph_words in *. cbn. unfold split in *. repeat split; lia.
Qed.

Lemma counts_app st0 st1 st2 bs cs :
  counts st0 st1 bs -> counts st1 st2 cs -> counts st0 st2 (bs ++ cs).
Proof.
  unfold counts. intros [Hw [Hp [Hh [Hl [Hs Hd]]]]] [Hw' [Hp' [Hh' [Hl' [Hs' Hd']]]]].
  rewrite paragraph_words_app, !filter_app, !length_app.
  repeat split; lia.
Qed.

Lemma flush_counts st0 s :
  counts st0 (stats s) (page_content s) ->
  counts st0 (stats (flush s)) (page_content (flush s)).
Proof.
  destruct s as [c b st]. cbn [stats page_content]. intro H.
  destruct b as [|x rest]; [exact H|].
  rewrite flush_nonempty by discriminate. cbn [stats page_content].
  now apply counts_paragraph.
Qed.

Lemma line_step_counts st0 s raw s' :
  counts st0 (stats s) (page_content s) ->
  line_step s raw = Ok s' ->
  counts st0 (stats s') (page_content s').
Proof.
  intros Hc H. destruct (line_kinds raw) as [K | [K | K]].
  - rewrite (line_step_blank s raw K) in H. injection H as <-.
    now apply flush_counts.
  - rewrite (line_step_heading s raw K) in H. injection H as <-.
    unfold add_heading. cbn [stats page_content].
    apply counts_heading. now apply flush_counts.
  - rewrite (line_step_body s raw K) in H. injection H as <-. exact Hc.
Qed.

Lemma for_lines_counts st0 lines : forall s s',
  counts st0 (stats s) (page_content s) ->
  for_lines s lines = Ok s' ->
  counts st0 (stats s') (page_content s').
Proof.
  induction lines as [|raw lines IH]; intros s s' Hc H; cbn [for_lines] in H.
  - now injection H as <-.
  - destruct (line_step s raw) as [s1|e] eqn:E; cbn [bind] in H; [|discriminate].
    exact (IH s1 s' (line_step_counts st0 s raw s1 Hc E) H).
Qed.

Lemma page_lines_counts st lines blocks st' :
  page_lines st lines = Ok (blocks, st') -> counts st st' blocks.
Proof.
  unfold page_lines. intro H.
  destruct (for_lines (mkPageState [] [] st) lines) as [s|e] eqn:E;
    cbn [bind] in H; [|discriminate].
  injection H as <- <-. apply flush_counts.
  apply (for_lines_counts st lines (mkPageState [] [] st) s (counts_refl st) E).
Qed.

Lemma for_pages_counts st0 pages : forall content st content' st',
  counts st0 st content ->
  for_pages content st pages = Ok (content', st') ->
  counts st0 st' content'.
Proof.
  induction pages as [|text pages IH]; intros content st content' st' Hc H;
    cbn [for_pages] in H.
  - now injection H as <- <-.
  - destruct (negb (truthy text)); [exact (IH _ _ _ _ Hc H)|].
    destruct (extract_page st text) as [[blocks st1]|e] eqn:E;
      cbn [bind fst snd] in H; [|discriminate].
    apply (IH _ _ _ _ (counts_app _ _ _ _ _ Hc
                         (page_lines_counts _ _ _ _ E)) H).
Qed.

(** X2: in the result of [async_extract], [total_paragraphs] is the number
    of paragraph blocks of the content, [total_headings] the number of
    heading blocks, [total_words] the sum of the word counts of the
    paragraph texts (the words of headings are not counted), and the three
    other counters are 0. *)
Theorem text_statistics_count pages r :
  async_extract pages = Ok r ->
  total_paragraphs (text_statistics r) = length (filter is_paragraph (content r)) /\
  total_headings (text_statistics r)
  = length (filter is_heading_block (content r)) /\
  total_words (text_statistics r) = paragraph_words (content r) /\
  total_list_items (text_statistics r) = 0 /\
  total_sections (text_statistics r) = 0 /\
  hierarchy_depth (text_statistics r) = 0.
Proof.
  unfold async_extract. intro H.
  destruct (for_pages [] statistics0 pages) as [[blocks st]|e] eqn:E;
    cbn [bind fst snd] in H; [|discriminate].
  injection H as <-. cbn [text_statistics content].
  destruct (for_pages_counts statistics0 pages [] statistics0 blocks st
              (counts_refl _) E) as [Hw [Hp [Hh [Hl [Hs Hd]]]]].
  cbn in Hw, Hp, Hh, Hl, Hs, Hd. repeat split; assumption.
Qed.

Lemma text_statistics_count_witness :
  total_paragraphs (mkStatistics 4 1 1 0 0 0) = 1 /\
  total_headings (mkStatistics 4 1 1 0 0 0) = 1 /\
  total_words (mkStatistics 4 1 1 0 0 0) = 4 /\
  total_list_items (mkStatistics 4 1 1 0 0 0) = 0 /\
  total_sections (mkStatistics 4 1 1 0 0 0) = 0 /\
  hierarchy_depth (mkStatistics 4 1 1 0 0 0) = 0.
Proof.
  exact (text_statistics_count
           [lit "1. Introduction" ++ newline :: lit "first line"
            ++ newline :: lit "second line"]
           (mkTextResult
              [Heading (lit "1. Introduction") 1;
               Paragraph (lit "first line second line")]
              (mkStatistics 4 1 1 0 0 0) 1)
           eq_refl).
Defined.

(** *** The blocks are well formed *)

Lemma flush_tidy s : tidy_state s -> tidy_state (flush s).
Proof.
  destruct s as [c b st]. unfold tidy_state. cbn [page_content paragraph_buffer].
  intros [Hc Hb]. destruct b as [|x rest]; [now split|].
  rewrite flush_nonempty by discriminate. cbn [page_content paragraph_buffer].
  split; [|constructor].
  apply Forall_app. split; [exact Hc|]. constructor; [|constructor].
  pose proof (join_tidy (x :: rest) ltac:(discriminate) Hb) as Ht.
  unfold well_formed. cbn [block_text].
  split; [apply Ht | split; [now apply tidy_trimmed | split; [apply Ht | exact I]]].
Qed.

Lemma line_step_tidy s raw s' :
  ~ In newline raw -> tidy_state s -> line_step s raw = Ok s' -> tidy_state s'.
Proof.
  intros Hn Hs H. destruct (line_kinds raw) as [K | [K | K]].
  - rewrite (line_step_blank s raw K) in H. injection H as <-.
    now apply flush_tidy.
  - rewrite (line_step_heading s raw K) in H. injection H as <-.
    destruct (flush_tidy s Hs) as [Hc Hb]. destruct K as [Kne Kh].
    unfold tidy_state, add_heading. cbn [page_content paragraph_buffer].
    split; [|exact Hb].
    apply Forall_app. split; [exact Hc|]. constructor; [|constructor].
    pose proof (tidy_strip raw Kne Hn) as Ht.
    unfold well_formed. cbn [block_text].
    split; [apply Ht | split; [now apply tidy_trimmed | split; [apply Ht|]]].
    now split.
  - rewrite (line_step_body s raw K) in H. injection H as <-.
    destruct Hs as [Hc Hb]. destruct K as [Kne Kh].
    unfold tidy_state, buffer_line. cbn [page_content paragraph_buffer].
    split; [exact Hc|].
    apply Forall_app. split; [exact Hb|]. constructor; [|constructor].
    now apply tidy_strip.
Qed.

Lemma for_lines_tidy lines : forall s s',
  Forall (fun raw => ~ In newline raw) lines ->
  tidy_state s -> for_lines s lines = Ok s' -> tidy_state s'.
Proof.
  induction lines as [|raw lines IH]; intros s s' Hn Hs H; cbn [for_lines] in H.
  - now injection H as <-.
  - inversion Hn as [|? ? Hraw Hrest]; subst.
    destruct (line_step s raw) as [s1|e] eqn:E; cbn [bind] in H; [|discriminate].
    exact (IH s1 s' Hrest (line_step_tidy s raw s1 Hraw Hs E) H).
Qed.

Lemma page_blocks_well_formed text : Forall well_formed (page_blocks text).
Proof.
  unfold page_blocks, extract_page, page_lines.
  destruct (for_lines_total (split_on newline text) (mkPageState [] [] statistics0))
    as [s E].
  rewrite E. cbn [bind fst].
  apply flush_tidy.
  apply (for_lines_tidy (split_on newline text) (mkPageState [] [] statistics0) s);
    [|now split | exact E].
  apply Forall_forall. intros piece. apply split_on_no_sep.
Qed.

(** X3: every block of the content of [async_extract] has a text that is
    not empty, has no white space at its ends and holds no newline; a
    heading block holds a line that [_is_heading] accepts and the level
    that [_determine_heading_level] gives to that line. *)
Theorem text_blocks_well_formed pages r :
  async_extract pages = Ok r -> Forall well_formed (content r).
Proof.
  intro H. destruct (text_extract_composes_blocks pages) as [st E].
  rewrite E in H. injection H as <-. cbn [content].
  apply Forall_flat_map, Forall_forall. intros text _.
  apply page_blocks_well_formed.
Qed.

Lemma text_blocks_well_formed_witness :
  Forall well_formed
    [Heading (lit "1. Introduction") 1; Paragraph (lit "first line second line")].
Proof.
  exact (text_blocks_well_formed
           [lit "1. Introduction" ++ newline :: lit " first line  "
            ++ newline :: lit "second line"]
           (mkTextResult
              [Heading (lit "1. Introduction") 1;
               Paragraph (lit "first line second line")]
              (mkStatistics 4 1 1 0 0 0) 1)
           eq_refl).
Defined.

(** *** Every word of a body line is counted once *)

Lemma body_words_blank raw : is_blank_line raw -> body_words raw = 0.
Proof. unfold is_blank_line, body_words. now intros ->. Qed.

Lemma body_words_heading raw : is_heading_line raw -> body_words raw = 0.
Proof.
  unfold is_heading_line, body_words. intros [Hne Hh].
  destruct (strip raw); [reflexivity | now rewrite Hh].
Qed.

Lemma body_words_body raw :
  is_body_line raw -> body_words raw = length (split (strip raw)).
Proof.
  unfold is_body_line, body_words. intros [Hne Hh].
  destruct (strip raw); [contradiction | now rewrite Hh].
Qed.

Lemma flush_words s :
  total_words (stats (flush s)) + buffer_words (flush s)
  = total_words (stats s) + buffer_words s.
Proof.
  destruct s as [c b st]. destruct b as [|x rest]; [reflexivity|].
  rewrite flush_nonempty by discriminate.
  unfold buffer_words, count_paragraph. cbn [stats paragraph_buffer total_words].
  rewrite words_join. cbn [map list_sum fold_right]. lia.
Qed.

Lemma line_step_words s raw s' :
  line_step s raw = Ok s' ->
  total_words (stats s') + buffer_words s'
  = total_words (stats s) + buffer_words s + body_words raw.
Proof.
  intro H. destruct (line_kinds raw) as [K | [K | K]].
  - rewrite (line_step_blank s raw K) in H. injection H as <-.
    rewrite (body_words_blank raw K), flush_words. lia.
  - rewrite (line_step_heading s raw K) in H. injection H as <-.
    rewrite (body_words_heading raw K).
    pose proof (flush_words s) as Hf.
    unfold add_heading, buffer_words in *.
    cbn [stats paragraph_buffer total_words count_heading]. lia.
  - rewrite (line_step_body s raw K) in H. injection H as <-.
    rewrite (body_words_body raw K).
    unfold buffer_line, buffer_words. cbn [stats paragraph_buffer].
    rewrite map_app, list_sum_app. cbn [map list_sum fold_right]. lia.
Qed.

Lemma for_lines_words lines : forall s s',
  for_lines s lines = Ok s' ->
  total_words (stats s') + buffer_words s'
  = total_words (stats s) + buffer_words s + list_sum (map body_words lines).
Proof.
  induction lines as [|raw lines IH]; intros s s' H; cbn [for_lines] in H.
  - injection H as <-. cbn. lia.
  - destruct (line_step s raw) as [s1|e] eqn:E; cbn [bind] in H; [|discriminate].
    rewrite (IH s1 s' H), (line_step_words s raw s1 E).
    unfold list_sum. cbn [map fold_right]. lia.
Qed.

Lemma extract_page_words st text blocks st' :
  extract_page st text = Ok (blocks, st') ->
  total_words st' = total_words st + page_body_words text.
Proof.
  unfold extract_page, page_lines, page_body_words. intro H.
  destruct (for_lines (mkPageState [] [] st) (split_on newline text))
    as [s|e] eqn:E; cbn [bind] in H; [|discriminate].
  injection H as _ <-.
  pose proof (for_lines_words _ _ s E) as Hw.
  pose proof (flush_words s) as Hf.
  pose proof (flush_buffer s) as Hb.
  unfold buffer_words in *. rewrite Hb in Hf.
  cbn [stats paragraph_buffer map list_sum fold_right] in *.
  rewrite Nat.add_0_r in Hf, Hw. rewrite Hf. exact Hw.
Qed.

Lemma for_pages_words pages : forall content st content' st',
  for_pages content st pages = Ok (content', st') ->
  total_words st' = total_words st + list_sum (map page_body_words pages).
Proof.
  induction pages as [|text pages IH]; intros content st content' st' H;
    cbn [for_pages] in H.
  - injection H as _ <-. cbn. lia.
  - destruct text as [|c text]; cbn [truthy negb] in H.
    + rewrite (IH _ _ _ _ H). unfold list_sum. cbn [map fold_right].
      change (page_body_words []) with 0. lia.
    + destruct (extract_page st (c :: text)) as [[blocks st1]|e] eqn:E;
        cbn [bind fst snd] in H; [|discriminate].
      rewrite (IH _ _ _ _ H), (extract_page_words _ _ _ _ E).
      unfold list_sum. cbn [map fold_right]. lia.
Qed.

(** X4: [total_words] is the number of white-space separated words on the
    lines that go to paragraphs, over all pages: each word of such a line is
    counted once, when its paragraph is flushed, and the words of headings
    and of blank lines are not counted. *)
Theorem text_words_accounted pages r :
  async_extract pages = Ok r ->
  total_words (text_statistics r) = list_sum (map page_body_words pages).
Proof.
  unfold async_extract. intro H.
  destruct (for_pages [] statistics0 pages) as [[blocks st]|e] eqn:E;
    cbn [bind fst snd] in H; [|discriminate].
  injection H as <-. cbn [text_statistics].
  exact (for_pages_words pages [] statistics0 blocks st E).
Qed.

Lemma text_words_accounted_witness :
  total_words (mkStatistics 4 1 1 0 0 0)
  = list_sum (map page_body_words
                [lit "1. Introduction" ++ newline :: lit "first line"
                 ++ newline :: lit "second line"]).
Proof.
  exact (text_words_accounted
           [lit "1. Introduction" ++ newline :: lit "first line"
            ++ newline :: lit "second line"]
           (mkTextResult
              [Heading (lit "1. Introduction") 1;
               Paragraph (lit "first line second line")]
              (mkStatistics 4 1 1 0 0 0) 1)
           eq_refl).
Defined.

End TextCoverage.

(** ** Heading levels *)

Module LevelCoverage.

Import TextExtractor PyFacts.

Lemma split_on_length sep s :
  length (split_on sep s)
  = S (length (filter (fun c => Ascii.eqb c sep) s)).
Proof.
  induction s as [|c s IH]; cbn [split_on filter]; [reflexivity|].
  destruct (Ascii.eqb c sep); cbn [length]; [now rewrite IH|].
  destruct (split_on sep s) as [|w ws]; [discriminate IH | exact IH].
Qed.

Lemma filter_length_le (A : Type) (f : A -> bool) l :
  length (filter f l) <= length l.
Proof.
  induction l as [|x l IH]; cbn [filter length]; [lia|].
  destruct (f x); cbn [length]; lia.
Qed.

Lemma filter_none_iff (A : Type) (f : A -> bool) l :
  length (filter f l) = 0 <-> Forall (fun x => f x = false) l.
Proof.
  induction l as [|x l IH]; cbn [filter].
  - split; [constructor | reflexivity].
  - destruct (f x) eqn:E; cbn [length].
    + split; [discriminate | intro H; inversion H; congruence].
    + rewrite IH. split; [now constructor | intro H; now inversion H].
Qed.

Lemma digit_not_period d : isdigit_c d = true -> Ascii.eqb d "."%char = false.
Proof.
  destruct d as [[] [] [] [] [] [] [] []]; intro H; try discriminate H;
    reflexivity.
Qed.

Lemma split_on_head sep c s :
  Ascii.eqb c sep = false ->
  exists w ws, split_on sep (c :: s) = (c :: w) :: ws.
Proof.
  intro H. cbn [split_on]. rewrite H.
  destruct (split_on sep s) as [|w ws]; now eexists _, _.
Qed.

(** X5: the level of a heading. It is 0 exactly when the stripped heading
    has a digit 1-9 followed by a period but no piece between periods begins
    with a digit (as in "Section 1."); with no such pattern it is 1, 2 or
    3; it is never more than the number of periods plus one, or 3; and it is
    at least 1 when the stripped heading begins with a digit. *)
Theorem heading_level_bounds heading :
  (_determine_heading_level heading = 0 <->
   numbered (strip heading) = true /\
   Forall (fun piece => numeric_leading piece = false)
          (split_on "."%char (strip heading))) /\
  (numbered (strip heading) = false ->
   1 <= _determine_heading_level heading <= 3) /\
  _determine_heading_level heading <= Nat.max 3 (S (periods (strip heading))) /\
  (forall d rest, strip heading = d :: rest -> isdigit_c d = true ->
                  1 <= _determine_heading_level heading).
Proof.
  unfold _determine_heading_level.
  set (l := strip heading).
  assert (Hlow : numbered l = false ->
            1 <= (if isupper l then 1
                  else if istitle l && (length l <? 50) then 2 else 3) <= 3).
  { intros _. destruct (isupper l); [lia|].
    destruct (istitle l && (length l <? 50)); lia. }
  split; [|split; [|split]].
  - destruct (numbered l) eqn:E.
    + rewrite filter_none_iff. tauto.
    + split; [intro H; specialize (Hlow eq_refl); lia | intros [H _]; discriminate].
  - intro E. rewrite E. now apply Hlow.
  - destruct (numbered l) eqn:E.
    + pose proof (filter_length_le _ numeric_leading (split_on "."%char l)) as H.
      rewrite split_on_length in H. unfold periods. lia.
    + specialize (Hlow eq_refl). lia.
  - intros d rest Hl Hd. destruct (numbered l) eqn:E.
    + rewrite Hl.
      destruct (split_on_head "."%char d rest (digit_not_period d Hd))
        as [w [ws ->]].
      cbn [filter numeric_leading]. rewrite Hd. cbn [length]. lia.
    + now apply Hlow.
Qed.

End LevelCoverage.

(** ** The table structurer, continued *)

Module TableCoverage.

Import TableExtractor PyFacts StringFacts TableFacts.

(** *** The table text *)

Lemma clean_cell_nil_iff c : clean_cell c = [] <-> blank_cell c.
Proof.
  destruct c as [s|]; cbn [clean_cell blank_cell]; [|tauto].
  destruct s as [|a s]; cbn [truthy]; [tauto|]. apply strip_nil_iff.
Qed.

Lemma row_blank_iff row :
  existsb truthy (map clean_cell row) = false <-> Forall blank_cell row.
Proof.
  induction row as [|c row IH]; cbn [map existsb].
  - split; [constructor | reflexivity].
  - rewrite orb_false_iff, IH. split.
    + intros [Hc Hr]. constructor; [|exact Hr].
      apply clean_cell_nil_iff. now destruct (clean_cell c).
    + intro H. inversion H as [|? ? Hc Hr]; subst. split; [|exact Hr].
      apply clean_cell_nil_iff in Hc. now rewrite Hc.
Qed.

Lemma formatted_rows_nil_iff table :
  formatted_rows table = [] <-> Forall (Forall blank_cell) table.
Proof.
  induction table as [|row table IH]; cbn [formatted_rows].
  - split; [constructor | reflexivity].
  - destruct (existsb truthy (map clean_cell row)) eqn:E.
    + split; [discriminate|]. intro H. inversion H as [|? ? Hrow _]; subst.
      apply row_blank_iff in Hrow. congruence.
    + rewrite IH. apply row_blank_iff in E.
      split; [now constructor | intro H; now inversion H].
Qed.

Lemma joined_row_nonempty cells :
  existsb truthy cells = true -> join row_sep cells <> [].
Proof.
  destruct cells as [|c [|d rest]]; cbn [existsb join].
  - discriminate.
  - rewrite orb_false_r. now destruct c.
  - intros _. destruct c; discriminate.
Qed.

Lemma formatted_rows_nonempty table :
  Forall (fun r => r <> []) (formatted_rows table).
Proof.
  induction table as [|row table IH]; cbn [formatted_rows]; [constructor|].
  destruct (existsb truthy (map clean_cell row)) eqn:E; [|exact IH].
  constructor; [now apply joined_row_nonempty | exact IH].
Qed.

Lemma join_nil_iff sep parts :
  Forall (fun p => p <> []) parts -> (join sep parts = [] <-> parts = []).
Proof.
  intro H. destruct parts as [|p rest]; [tauto|].
  inversion H as [|? ? Hp _]; subst.
  split; [|discriminate]. intro E. exfalso.
  exact (join_nonempty sep p rest Hp E).
Qed.

(** X6: the table text is empty exactly when every cell of the grid is
    [None] or white space only; a single cell with text gives a text that is
    not empty. *)
Theorem table_text_empty_iff table :
  _format_table_for_llm table = [] <-> Forall (Forall blank_cell) table.
Proof.
  unfold _format_table_for_llm.
  rewrite (join_nil_iff [newline] _ (formatted_rows_nonempty table)).
  apply formatted_rows_nil_iff.
Qed.

Lemma In_join c sep parts :
  In c (join sep parts) -> In c sep \/ exists p, In p parts /\ In c p.
Proof.
  induction parts as [|p rest IH]; [intros []|].
  destruct rest as [|q rest].
  - cbn [join]. intro H. right. exists p. split; [now left | exact H].
  - change (join sep (p :: q :: rest)) with (p ++ sep ++ join sep (q :: rest)).
    intro H. apply in_app_or in H as [H | H].
    + right. exists p. split; [now left | exact H].
    + apply in_app_or in H as [H | H]; [now left|].
      destruct (IH H) as [Hs | [p' [Hp' Hc]]]; [now left | right].
      exists p'. split; [now right | exact Hc].
Qed.

Lemma clean_cell_one_line c : one_line_cell c -> ~ In newline (clean_cell c).
Proof.
  destruct c as [s|]; cbn [clean_cell one_line_cell]; [|intros _ []].
  intros Hs. destruct (truthy s); [|intros []].
  intro H. apply Hs. now apply In_strip.
Qed.

Lemma formatted_rows_one_line table :
  Forall (Forall one_line_cell) table ->
  Forall (fun r => ~ In newline r) (formatted_rows table).
Proof.
  induction 1 as [|row table Hrow _ IH]; cbn [formatted_rows]; [constructor|].
  destruct (existsb truthy (map clean_cell row)); [|exact IH].
  constructor; [|exact IH].
  intro Hin. apply In_join in Hin as [Hin | [cell [Hcell Hin]]].
  - unfold row_sep in Hin. cbn in Hin.
    repeat (destruct Hin as [Hin | Hin]; [discriminate Hin|]). exact Hin.
  - apply in_map_iff in Hcell as [c [<- Hc]].
    apply (clean_cell_one_line c); [|exact Hin].
    exact (proj1 (Forall_forall _ _) Hrow c Hc).
Qed.

(** X7: when no cell holds a newline and the table text is not empty,
    splitting the table text on newlines gives back the formatted rows, one
    for each row of the grid that has a cell with text: these are the
    [rows] of the fallback. *)
Theorem table_text_rows table :
  Forall (Forall one_line_cell) table ->
  _format_table_for_llm table <> [] ->
  split_on newline (_format_table_for_llm table) = formatted_rows table.
Proof.
  intros Hcells Hne. unfold _format_table_for_llm in *.
  apply split_on_join.
  - intro E. apply Hne. now rewrite E.
  - now apply formatted_rows_one_line.
Qed.

Lemma table_text_rows_witness :
  split_on newline
    (_format_table_for_llm
       [[Some (lit "a"); Some (lit " b ")]; [None; Some (lit " ")];
        [Some (lit "1"); None]])
  = [lit "a | b"; lit "1 | "].
Proof.
  apply (table_text_rows
           [[Some (lit "a"); Some (lit " b ")]; [None; Some (lit " ")];
            [Some (lit "1"); None]]).
  - repeat constructor; cbn; intuition discriminate.
  - discriminate.
Defined.

(** *** The records *)

Lemma In_enumerate (A : Type) (l : list A) : forall s k x,
  In (k, x) (enumerate s l) <-> s <= k /\ nth_error l (k - s) = Some x.
Proof.
  induction l as [|y l IH]; intros s k x; cbn [enumerate In].
  - split; [intros [] | intros [_ H]]. now destruct (k - s).
  - rewrite IH. split.
    + intros [H | [Hle H]].
      * injection H as <- <-. split; [lia|]. now rewrite Nat.sub_diag.
      * split; [lia|]. replace (k - s) with (S (k - S s)) by lia. exact H.
    + intros [Hle H]. destruct (k - s) as [|n] eqn:E.
      * left. injection H as <-. f_equal. lia.
      * right. split; [lia|]. replace (k - S s) with n by lia. exact H.
Qed.

Lemma StronglySorted_app (A : Type) (R : A -> A -> Prop) l1 l2 :
  StronglySorted R l1 -> StronglySorted R l2 ->
  (forall a b, In a l1 -> In b l2 -> R a b) ->
  StronglySorted R (l1 ++ l2).
Proof.
  induction 1 as [|x l1 H1 IH Hx]; intros H2 H12; cbn [app]; [exact H2|].
  constructor.
  - apply IH; [exact H2|]. intros a b Ha Hb. apply H12; [now right | exact Hb].
  - apply Forall_app. split; [exact Hx|].
    apply Forall_forall. intros b Hb. apply H12; [now left | exact Hb].
Qed.

Lemma sorted_flat_enumerate (A B : Type) (R : B -> B -> Prop)
  (f : nat -> A -> list B) :
  (forall k x, StronglySorted R (f k x)) ->
  (forall k1 k2 x1 x2 a b,
      k1 < k2 -> In a (f k1 x1) -> In b (f k2 x2) -> R a b) ->
  forall l s,
    StronglySorted R (flat_map (fun e => f (fst e) (snd e)) (enumerate s l)).
Proof.
  intros Hin Hout. induction l as [|x l IH]; intro s;
    cbn [enumerate flat_map fst snd]; [constructor|].
  apply StronglySorted_app; [apply Hin | apply IH|].
  intros a b Ha Hb. apply in_flat_map in Hb as [[k y] [Hk Hb]].
  apply In_enumerate in Hk as [Hk _]. cbn [fst snd] in Hb.
  apply (Hout s k x y a b); [lia | exact Ha | exact Hb].
Qed.

Section Extract.

Variable json : Type.
Variable llm : nat -> nat -> str -> result str.
Variable json_loads : str -> loads_result json.

Local Abbreviation emitted := (Vocabulary.emitted llm json_loads).
Local Abbreviation page_emitted := (Vocabulary.page_emitted llm json_loads).
Local Abbreviation async_extract := (TableExtractor.async_extract llm json_loads).

Lemma table_pages_fail pre e post : forall s tables,
  exists e', for_pages llm json_loads tables (enumerate s (pre ++ Raise e :: post))
             = Raise e'.
Proof.
  induction pre as [|page pre IH]; intros s tables;
    cbn [app enumerate for_pages bind]; [now exists e|].
  destruct page as [page_tables|e']; cbn [bind]; [apply IH | now exists e'].
Qed.

Lemma pages_all_ok (pages : list (result (list raw_table))) :
  (exists doc, pages = map Ok doc) \/
  (exists pre e post, pages = pre ++ Raise e :: post).
Proof.
  induction pages as [|page pages IH]; [left; now exists []|].
  destruct page as [page_tables|e].
  - destruct IH as [[doc ->] | [pre [e [post ->]]]].
    + left. now exists (page_tables :: doc).
    + right. now exists (Ok page_tables :: pre), e, post.
  - right. now exists [], e, pages.
Qed.

Lemma emitted_sound p k table r :
  In r (emitted p k table) ->
  table <> [] /\
  exists reply,
    llm p k (prompt (_format_table_for_llm table)) = Ok reply /\
    row_count r = length table /\ column_count r = columns table /\
    page_number r = p /\ table_number r = k /\
    ((exists j, json_loads reply = Loaded j /\ structured_data r = Parsed j) \/
     (json_loads reply = JSONDecodeError /\
      structured_data r
      = RawText (_format_table_for_llm table)
                (split_on newline (_format_table_for_llm table)))).
Proof.
  unfold Vocabulary.emitted, table_step, _process_table_with_llm.
  destruct table as [|row rest]; [intros []|].
  destruct (llm p k _) as [reply|e]; [|intros []].
  intro H. split; [discriminate|]. exists reply. split; [reflexivity|].
  destruct (json_loads reply) as [j| |e] eqn:E; cbn [success] in H;
    [| |destruct H]; destruct H as [<- | []];
    cbn [row_count column_count page_number table_number structured_data];
    (split; [reflexivity|]); (split; [reflexivity|]);
    (split; [reflexivity|]); (split; [reflexivity|]).
  - left. now exists j.
  - right. now split.
Qed.

Lemma emitted_sorted p k table : StronglySorted (@before json) (emitted p k table).
Proof.
  unfold Vocabulary.emitted, table_step.
  destruct table as [|row rest]; [constructor|].
  destruct (success _); cbn [app]; repeat constructor.
Qed.

Lemma page_emitted_sorted p page_tables :
  StronglySorted (@before json) (page_emitted p page_tables).
Proof.
  unfold Vocabulary.page_emitted.
  apply (sorted_flat_enumerate _ _ (@before json) (fun k t => emitted p k t)).
  - intros k t. apply emitted_sorted.
  - intros k1 k2 t1 t2 a b Hk Ha Hb.
    apply emitted_key in Ha as [Hpa Hka], Hb as [Hpb Hkb].
    right. split; lia.
Qed.

End Extract.

Lemma table_extraction_failure_all (json : Type) llm
  (json_loads : str -> loads_result json) :
  (forall e, async_extract llm json_loads (Raise e) = []) /\
  (forall pre e post,
      async_extract llm json_loads (Ok (pre ++ Raise e :: post)) = []).
Proof.
  split; [reflexivity|]. intros pre e post. unfold async_extract. cbn [bind].
  destruct (table_pages_fail json llm json_loads pre e post 1 []) as [e' ->].
  reflexivity.
Qed.

(** X8: an exception while the tables of a page are read, or while the file
    is opened, gives the empty table list: the records of the pages read
    before it are dropped. *)
Theorem table_extraction_failure (json : Type) llm
  (json_loads : str -> loads_result json) :
  (forall e, async_extract llm json_loads (Raise e) = []) /\
  (forall pre e post,
      async_extract llm json_loads (Ok (pre ++ Raise e :: post)) = []).
Proof. apply table_extraction_failure_all. Qed.

(** X9: every record of the result comes from a table of the document: its
    page number and table number, counted from 1, are the places of the
    page and of the table on the page; the table has a row; [row_count] is
    its number of rows and [column_count] the length of its first row; and
    the model call for it returned, the data being the parsed reply, or
    the fallback when [json.loads] raised [JSONDecodeError], never the
    error of a failed call. *)
Theorem table_record_sound (json : Type) llm
  (json_loads : str -> loads_result json) pdf r :
  In r (async_extract llm json_loads pdf) ->
  exists pages page_tables table reply,
    pdf = Ok pages /\
    1 <= page_number r /\ 1 <= table_number r /\
    nth_error pages (page_number r - 1) = Some (Ok page_tables) /\
    nth_error page_tables (table_number r - 1) = Some table /\
    table <> [] /\
    row_count r = length table /\
    column_count r = columns table /\
    llm (page_number r) (table_number r) (prompt (_format_table_for_llm table))
    = Ok reply /\
    ((exists j, json_loads reply = Loaded j /\ structured_data r = Parsed j) \/
     (json_loads reply = JSONDecodeError /\
      structured_data r
      = RawText (_format_table_for_llm table)
                (split_on newline (_format_table_for_llm table)))).
Proof.
  intro Hin. destruct pdf as [pages|e]; [|destruct Hin].
  destruct (pages_all_ok pages) as [[doc ->] | [pre [e [post ->]]]].
  - rewrite async_extract_emitted in Hin.
    apply in_flat_map in Hin as [[p page_tables] [Hp Hin]].
    apply In_enumerate in Hp as [Hp1 Hp]. cbn [fst snd] in Hin.
    unfold Vocabulary.page_emitted in Hin.
    apply in_flat_map in Hin as [[k table] [Hk Hin]].
    apply In_enumerate in Hk as [Hk1 Hk]. cbn [fst snd] in Hin.
    apply emitted_sound
      in Hin as [Hne [reply [Hreply [Hrows [Hcols [-> [-> Hdata]]]]]]].
    exists (map Ok doc), page_tables, table, reply.
    split; [reflexivity|]. split; [exact Hp1|]. split; [exact Hk1|].
    split; [now apply map_nth_error|]. split; [exact Hk|].
    split; [exact Hne|]. split; [exact Hrows|]. split; [exact Hcols|].
    split; [exact Hreply | exact Hdata].
  - rewrite (proj2 (table_extraction_failure_all json llm json_loads)) in Hin.
    destruct Hin.
Qed.

Lemma table_record_sound_witness :
  exists pages page_tables table reply,
    Ok [Ok [[[Some (lit "a")]]]] = Ok pages /\
    1 <= 1 /\ 1 <= 1 /\
    nth_error pages (1 - 1) = Some (Ok page_tables) /\
    nth_error page_tables (1 - 1) = Some table /\
    table <> [] /\
    1 = length table /\
    1 = columns table /\
    Ok (lit "{}") = Ok reply /\
    ((exists j, Loaded tt = Loaded j /\ Parsed tt = Parsed j) \/
     (@Loaded unit tt = JSONDecodeError /\
      Parsed tt
      = RawText (_format_table_for_llm table)
                (split_on newline (_format_table_for_llm table)))).
Proof.
  apply (table_record_sound unit (fun _ _ _ => Ok (lit "{}"))
           (fun _ => Loaded tt)
           (Ok [Ok [[[Some (lit "a")]]]]) (mkTable 1 1 (Parsed tt) 1 1)).
  left. reflexivity.
Defined.

(** X10: the records are in page order and, on a page, in detection order:
    the pairs of page number and table number grow strictly along the
    list, so no two records have the same pair. *)
Theorem table_records_ordered (json : Type) llm
  (json_loads : str -> TableExtractor.loads_result json) pdf :
  StronglySorted (@before json) (async_extract llm json_loads pdf).
Proof.
  destruct pdf as [pages|e]; [|constructor].
  destruct (pages_all_ok pages) as [[doc ->] | [pre [e [post ->]]]].
  - rewrite async_extract_emitted.
    apply (sorted_flat_enumerate _ _ (@before json)
             (Vocabulary.page_emitted llm json_loads)).
    + intros p page_tables. apply page_emitted_sorted.
    + intros p1 p2 t1 t2 a b Hp Ha Hb.
      apply page_emitted_key in Ha, Hb. left. lia.
  - rewrite (proj2 (table_extraction_failure_all json llm json_loads)).
    constructor.
Qed.

End TableCoverage.

(** ** The visual structurer, continued *)

Module VisualCoverage.

Import VisualExtractor PyFacts StringFacts VisualFacts.

Section Detect.

Variable arctan2 : Z -> Z -> float.

Local Abbreviation is_horizontal := (is_horizontal arctan2).
Local Abbreviation is_vertical := (is_vertical arctan2).
Local Abbreviation detect := (_detect_and_process_graph arctan2).
Local Abbreviation page_step := (VisualExtractor.page_step arctan2).
Local Abbreviation for_pages := (VisualExtractor.for_pages arctan2).
Local Abbreviation async_extract := (VisualExtractor.async_extract arctan2).

Lemma detect_inv pg gd :
  detect pg = Some gd ->
  exists lines,
    hough_lines pg = Ok (Some lines) /\
    2 <= length (filter is_horizontal lines) /\
    2 <= length (filter is_vertical lines) /\
    gd = mkGraphData
           (_determine_graph_type (map tuple_of (filter is_horizontal lines))
                                  (map tuple_of (filter is_vertical lines)))
           (length (filter is_horizontal lines))
           (length (filter is_vertical lines)).
Proof.
  unfold _detect_and_process_graph.
  destruct (hough_lines pg) as [[lines|]|e]; try discriminate.
  rewrite orient_filter. cbn [app]. rewrite !length_map.
  destruct (2 <=? length (filter is_horizontal lines)) eqn:Eh; [|discriminate].
  destruct (2 <=? length (filter is_vertical lines)) eqn:Ev; [|discriminate].
  cbn [andb]. intro H. injection H as <-.
  apply Nat.leb_le in Eh, Ev. now exists lines.
Qed.

Lemma extract_text_trimmed pg config :
  trimmed (_extract_text_from_region pg config).
Proof.
  unfold trimmed, _extract_text_from_region.
  destruct (image_to_string pg config); [apply strip_idempotent | reflexivity].
Qed.

Lemma page_step_origin ve n pg ve' :
  page_step ve (n, pg) = Ok ve' ->
  (forall img, In img (images ve') ->
     In img (images ve) \/
     (img = image_of n pg /\ detect pg = None /\
      _extract_text_from_region pg cfg_text <> [])) /\
  (forall g, In g (graphs ve') ->
     In g (graphs ve) \/
     exists gd, detect pg = Some gd /\ g = graph_of n pg gd) /\
  length (images ve') + length (graphs ve')
  <= S (length (images ve) + length (graphs ve)).
Proof.
  unfold VisualExtractor.page_step.
  destruct (np_array pg) as [u|e]; cbn [bind]; [|discriminate].
  destruct (detect pg) as [gd|].
  - intro H. injection H as <-. cbn [images graphs]. split; [|split].
    + intros img Hin. now left.
    + intros g Hin. apply in_app_or in Hin as [Hin | [<- | []]]; [now left|].
      right. now exists gd.
    + rewrite length_app. cbn [length]. lia.
  - destruct (truthy (strip (_extract_text_from_region pg cfg_text))) eqn:E;
      intro H; injection H as <-; cbn [images graphs].
    + split; [|split].
      * intros img Hin. apply in_app_or in Hin as [Hin | [<- | []]]; [now left|].
        right. split; [reflexivity | split; [reflexivity|]].
        intro Hnil. rewrite Hnil in E. discriminate E.
      * intros g Hin. now left.
      * rewrite length_app. cbn [length]. lia.
    + split; [|split]; [intros; now left | intros; now left | lia].
Qed.

Lemma for_pages_origin pages : forall s ve ve',
  for_pages ve (enumerate s pages) = Ok ve' ->
  (forall img, In img (images ve') ->
     In img (images ve) \/
     exists i pg, nth_error pages i = Some pg /\ img = image_of (s + i) pg /\
                  detect pg = None /\
                  _extract_text_from_region pg cfg_text <> []) /\
  (forall g, In g (graphs ve') ->
     In g (graphs ve) \/
     exists i pg gd, nth_error pages i = Some pg /\ detect pg = Some gd /\
                     g = graph_of (s + i) pg gd).
Proof.
  induction pages as [|pg pages IH]; intros s ve ve' H;
    cbn [enumerate VisualExtractor.for_pages] in H.
  - injection H as <-. split; intros; now left.
  - destruct (page_step ve (s, pg)) as [ve1|e] eqn:E1; cbn [bind] in H;
      [|discriminate].
    destruct (page_step_origin ve s pg ve1 E1) as [Hi1 [Hg1 _]].
    destruct (IH (S s) ve1 ve' H) as [Hi Hg]. split.
    + intros img Hin. destruct (Hi img Hin) as [Hin1 | [i [pg' [Hn [-> Hrest]]]]].
      * destruct (Hi1 img Hin1) as [Hin0 | [-> Hrest]]; [now left | right].
        exists 0, pg. rewrite Nat.add_0_r. now split.
      * right. exists (S i), pg'. rewrite Nat.add_succ_r. now split.
    + intros g Hin. destruct (Hg g Hin) as [Hin1 | [i [pg' [gd [Hn [Hd ->]]]]]].
      * destruct (Hg1 g Hin1) as [Hin0 | [gd [Hd ->]]]; [now left | right].
        exists 0, pg, gd. rewrite Nat.add_0_r. now split.
      * right. exists (S i), pg', gd. rewrite Nat.add_succ_r. now split.
Qed.

Lemma page_step_order ve n pg ve' :
  in_page_order n ve -> page_step ve (n, pg) = Ok ve' ->
  in_page_order (S n) ve'.
Proof.
  intros [Hsi [Hsg [Hbi [Hbg Hlen]]]].
  assert (Hsnoc : forall l, StronglySorted lt l -> Forall (fun k => k < n) l ->
            StronglySorted lt (l ++ [n])).
  { intros l Hs Hb. apply TableCoverage.StronglySorted_app.
    - exact Hs.
    - repeat constructor.
    - intros a b Ha [<- | []]. exact (proj1 (Forall_forall _ _) Hb a Ha). }
  assert (Hweak : forall l, Forall (fun k => k < n) l -> Forall (fun k => k < S n) l).
  { intros l Hb. eapply Forall_impl; [|exact Hb]. cbn. intros; lia. }
  unfold VisualExtractor.page_step.
  destruct (np_array pg) as [u|e]; cbn [bind]; [|discriminate].
  destruct (detect pg) as [gd|].
  - intro H. injection H as <-. unfold in_page_order. cbn [images graphs].
    rewrite map_app, length_app. cbn [map length graph_page_number].
    split; [exact Hsi|]. split; [now apply Hsnoc|].
    split; [now apply Hweak|]. split; [|lia].
    apply Forall_app. split; [now apply Hweak | repeat constructor].
  - destruct (truthy (strip (_extract_text_from_region pg cfg_text)));
      intro H; injection H as <-; unfold in_page_order; cbn [images graphs].
    + rewrite map_app, length_app. cbn [map length image_page_number].
      split; [now apply Hsnoc|]. split; [exact Hsg|].
      split; [|split; [now apply Hweak | lia]].
      apply Forall_app. split; [now apply Hweak | repeat constructor].
    + split; [exact Hsi|]. split; [exact Hsg|].
      split; [now apply Hweak|]. split; [now apply Hweak | lia].
Qed.

Lemma for_pages_order pages : forall s ve ve',
  in_page_order s ve -> for_pages ve (enumerate s pages) = Ok ve' ->
  in_page_order (s + length pages) ve'.
Proof.
  induction pages as [|pg pages IH]; intros s ve ve' Hs H;
    cbn [enumerate VisualExtractor.for_pages length] in *.
  - injection H as <-. now rewrite Nat.add_0_r.
  - destruct (page_step ve (s, pg)) as [ve1|e] eqn:E1; cbn [bind] in H;
      [|discriminate].
    rewrite Nat.add_succ_r.
    exact (IH (S s) ve1 ve' (page_step_order ve s pg ve1 Hs E1) H).
Qed.

Lemma for_pages_error entries : forall ve ve',
  for_pages ve entries = Ok ve' ->
  error (statistics ve') = error (statistics ve).
Proof.
  induction entries as [|[n pg] entries IH]; intros ve ve' H;
    cbn [VisualExtractor.for_pages] in H.
  - now injection H as <-.
  - destruct (page_step ve (n, pg)) as [ve1|e] eqn:E1; cbn [bind] in H;
      [|discriminate].
    rewrite (IH ve1 ve' H). revert E1. unfold VisualExtractor.page_step.
    destruct (np_array pg) as [u|e]; cbn [bind]; [|discriminate].
    destruct (detect pg) as [gd|].
    + intro E. now injection E as <-.
    + destruct (truthy _); intro E; now injection E as <-.
Qed.

Lemma visual_pages_fail pre pg post e : forall s ve,
  Forall (fun p => np_array p = Ok tt) pre ->
  np_array pg = Raise e ->
  for_pages ve (enumerate s (pre ++ pg :: post)) = Raise e.
Proof.
  induction pre as [|p pre IH]; intros s ve Hpre Hpg;
    cbn [app enumerate VisualExtractor.for_pages].
  - unfold VisualExtractor.page_step. now rewrite Hpg.
  - inversion Hpre as [|? ? Hp Hrest]; subst.
    destruct (for_pages_total arctan2 [p] s ve) as [ve1 E].
    { now constructor. }
    cbn [enumerate VisualExtractor.for_pages] in E.
    destruct (page_step ve (s, p)) as [ve1'|e1]; cbn [bind] in *;
      [|discriminate].
    now apply IH.
Qed.

End Detect.

(** X11: a page is classified as a graph exactly when lines are found on
    it, at least two of them horizontal and at least two vertical; the
    graph data then holds these two counts, and its type is one of the
    three charts, never [unknown_graph_type], since each detected segment
    has its four coordinates. *)
Theorem graph_detected_iff arctan2 pg gd :
  (_detect_and_process_graph arctan2 pg = Some gd <->
   exists lines,
     hough_lines pg = Ok (Some lines) /\
     2 <= length (filter (is_horizontal arctan2) lines) /\
     2 <= length (filter (is_vertical arctan2) lines) /\
     gd = mkGraphData
            (_determine_graph_type
               (map tuple_of (filter (is_horizontal arctan2) lines))
               (map tuple_of (filter (is_vertical arctan2) lines)))
            (length (filter (is_horizontal arctan2) lines))
            (length (filter (is_vertical arctan2) lines))) /\
  (_detect_and_process_graph arctan2 pg = Some gd ->
   graph_type_of gd <> unknown_graph_type).
Proof.
  split; [split|].
  - apply detect_inv.
  - intros [lines [Hl [Hh [Hv ->]]]].
    unfold _detect_and_process_graph. rewrite Hl, orient_filter. cbn [app].
    rewrite !length_map. apply Nat.leb_le in Hh, Hv. now rewrite Hh, Hv.
  - apply detected_type_known.
Qed.

(** X12: when [convert_from_path] raises, or [np.array] raises on a page,
    the result has no image and no graph, counters at 0 and the message of
    the exception as error marker: the records of the pages before it are
    dropped. With no exception there is no error marker. *)
Theorem visual_extraction_failure arctan2 :
  (forall e, async_extract arctan2 (Raise e) = empty_result (Some (exn_msg e))) /\
  (forall pre pg post e,
      Forall (fun p => np_array p = Ok tt) pre ->
      np_array pg = Raise e ->
      async_extract arctan2 (Ok (pre ++ pg :: post))
      = empty_result (Some (exn_msg e))) /\
  (forall pages,
      Forall (fun p => np_array p = Ok tt) pages ->
      error (statistics (async_extract arctan2 (Ok pages))) = None).
Proof.
  split; [reflexivity | split].
  - intros pre pg post e Hpre Hpg. unfold async_extract. cbn [bind].
    now rewrite (visual_pages_fail arctan2 pre pg post e 1 _ Hpre Hpg).
  - intros pages Hok. unfold async_extract. cbn [bind].
    destruct (for_pages_total arctan2 pages 1 (empty_result None) Hok) as [ve E].
    rewrite E. exact (for_pages_error arctan2 _ _ ve E).
Qed.

(** X13: every image record is the record of a page that was not
    classified as a graph and whose OCR text, once trimmed, is not empty:
    its page number is the place of the page, its text that trimmed text
    and [word_count] the number of words of the text. Every graph record is
    the record of a page classified as a graph, with the graph data found
    on it, its type, and the OCR text under the graph configuration. So no
    page has both an image record and a graph record. *)
Theorem visual_records_sound arctan2 pages :
  (forall img, In img (images (async_extract arctan2 (Ok pages))) ->
     exists i pg,
       nth_error pages i = Some pg /\ img = image_of (S i) pg /\
       _detect_and_process_graph arctan2 pg = None /\
       _extract_text_from_region pg cfg_text <> []) /\
  (forall g, In g (graphs (async_extract arctan2 (Ok pages))) ->
     exists i pg gd,
       nth_error pages i = Some pg /\
       _detect_and_process_graph arctan2 pg = Some gd /\
       g = graph_of (S i) pg gd) /\
  (forall img g,
      In img (images (async_extract arctan2 (Ok pages))) ->
      In g (graphs (async_extract arctan2 (Ok pages))) ->
      image_page_number img <> graph_page_number g).
Proof.
  assert (H : (forall img, In img (images (async_extract arctan2 (Ok pages))) ->
     exists i pg,
       nth_error pages i = Some pg /\ img = image_of (S i) pg /\
       _detect_and_process_graph arctan2 pg = None /\
       _extract_text_from_region pg cfg_text <> []) /\
  (forall g, In g (graphs (async_extract arctan2 (Ok pages))) ->
     exists i pg gd,
       nth_error pages i = Some pg /\
       _detect_and_process_graph arctan2 pg = Some gd /\
       g = graph_of (S i) pg gd)).
  { unfold async_extract. cbn [bind].
    destruct (for_pages arctan2 (empty_result None) (enumerate 1 pages))
      as [ve|e] eqn:E; [|split; intros ? []].
    destruct (for_pages_origin arctan2 pages 1 _ ve E) as [Hi Hg]. split.
    - intros img Hin. destruct (Hi img Hin) as [[] | Hex]. exact Hex.
    - intros g Hin. destruct (Hg g Hin) as [[] | Hex]. exact Hex. }
  destruct H as [Hi Hg]. split; [exact Hi | split; [exact Hg|]].
  intros img g Himg Hgr Heq.
  destruct (Hi img Himg) as [i [pg [Hn [-> [Hnone _]]]]].
  destruct (Hg g Hgr) as [j [pg' [gd [Hn' [Hsome ->]]]]].
  cbn in Heq. injection Heq as ->. rewrite Hn in Hn'. injection Hn' as <-.
  congruence.
Qed.

(** X14: the image records are in page order and so are the graph records,
    with page numbers that grow strictly, so a page has at most one record;
    images and graphs together are no more than the pages. *)
Theorem visual_records_ordered arctan2 pages :
  StronglySorted lt
    (map image_page_number (images (async_extract arctan2 (Ok pages)))) /\
  StronglySorted lt
    (map graph_page_number (graphs (async_extract arctan2 (Ok pages)))) /\
  length (images (async_extract arctan2 (Ok pages)))
  + length (graphs (async_extract arctan2 (Ok pages)))
  <= length pages.
Proof.
  unfold async_extract. cbn [bind].
  destruct (for_pages arctan2 (empty_result None) (enumerate 1 pages))
    as [ve|e] eqn:E.
  - assert (H0 : in_page_order 1 (empty_result None)).
    { unfold in_page_order. cbn. repeat split; try constructor. }
    destruct (for_pages_order arctan2 pages 1 _ ve H0 E)
      as [Hsi [Hsg [_ [_ Hlen]]]].
    split; [exact Hsi | split; [exact Hsg | lia]].
  - cbn. repeat split; try constructor. lia.
Qed.

End VisualCoverage.

(** ** Numbers in decimal *)

Module DigitsFacts.

Local Open Scope N_scope.

Lemma digit_cases d : d < 10 ->
  d = 0 \/ d = 1 \/ d = 2 \/ d = 3 \/ d = 4 \/ d = 5 \/ d = 6 \/ d = 7
  \/ d = 8 \/ d = 9.
Proof. lia. Qed.

Lemma digit_char_digit d : d < 10 -> re_digit (digit_char d) = true.
Proof.
  intro H. destruct (digit_cases d H) as [-> | [-> | [-> | [-> | [-> | [-> |
    [-> | [-> | [-> | ->]]]]]]]]]; reflexivity.
Qed.

Lemma digit_char_value d : d < 10 -> digit_value (digit_char d) = d.
Proof.
  intro H. destruct (digit_cases d H) as [-> | [-> | [-> | [-> | [-> | [-> |
    [-> | [-> | [-> | ->]]]]]]]]]; reflexivity.
Qed.

Lemma digits_of_digits fuel : forall n acc,
  forallb re_digit acc = true ->
  forallb re_digit (digits_of fuel n acc) = true.
Proof.
  induction fuel as [|fuel IH]; intros n acc H; cbn [digits_of]; [exact H|].
  assert (Hd : forallb re_digit (digit_char (n mod 10) :: acc) = true).
  { cbn [forallb]. rewrite H, digit_char_digit; [reflexivity|].
    apply N.mod_lt. discriminate. }
  destruct (n <? 10); [exact Hd | now apply IH].
Qed.

Lemma digits_of_length fuel : forall n acc,
  (length acc <= length (digits_of fuel n acc))%nat.
Proof.
  induction fuel as [|fuel IH]; intros n acc; cbn [digits_of]; [lia|].
  destruct (n <? 10); [cbn [length]; lia|].
  specialize (IH (n / 10) (digit_char (n mod 10) :: acc)).
  cbn [length] in IH. lia.
Qed.

Lemma digits_of_value fuel : forall n acc,
  n < 10 ^ N.of_nat fuel ->
  digits_value 0 (digits_of fuel n acc) = digits_value n acc.
Proof.
  induction fuel as [|fuel IH]; intros n acc Hn; cbn [digits_of].
  - change (10 ^ N.of_nat 0) with 1 in Hn. now replace n with 0 by lia.
  - assert (Hm : n mod 10 < 10) by (apply N.mod_lt; discriminate).
    destruct (N.ltb_spec n 10) as [Hlt | Hge].
    + unfold digits_value. cbn [fold_left].
      rewrite (digit_char_value _ Hm), N.mod_small by exact Hlt.
      now rewrite N.mul_0_r, N.add_0_l.
    + rewrite IH.
      * unfold digits_value. cbn [fold_left].
        rewrite (digit_char_value _ Hm).
        now rewrite <- (N.div_mod n 10) by discriminate.
      * rewrite Nat2N.inj_succ, N.pow_succ_r' in Hn.
        apply N.Div0.div_lt_upper_bound. exact Hn.
Qed.

Lemma enough_fuel n : n < 10 ^ N.of_nat (S (N.to_nat (N.log2 n))).
Proof.
  rewrite Nat2N.inj_succ, N2Nat.id.
  destruct n as [|p]; [reflexivity|].
  pose proof (N.log2_spec (N.pos p) ltac:(reflexivity)) as [_ H].
  eapply N.lt_le_trans; [exact H|].
  apply N.pow_le_mono_l. lia.
Qed.

Lemma str_of_N_digits n : forallb re_digit (str_of_N n) = true.
Proof. unfold str_of_N. now apply digits_of_digits. Qed.

Lemma str_of_N_nonempty n : str_of_N n <> [].
Proof.
  unfold str_of_N. cbn [digits_of].
  destruct (n <? 10); [discriminate|].
  intro H.
  pose proof (digits_of_length (N.to_nat (N.log2 n)) (n / 10)
                [digit_char (n mod 10)]) as Hl.
  rewrite H in Hl. cbn in Hl. lia.
Qed.

(** [int(str(n))] is [n]. *)
Lemma int_of_str n : int_of_digits (str_of_N n) = n.
Proof.
  unfold str_of_N.
  change (int_of_digits ?s) with (digits_value 0 s).
  rewrite digits_of_value by apply enough_fuel. reflexivity.
Qed.

End DigitsFacts.

(** ** From the corpus to the citations *)

Module CitationCoverage.

Import App PyFacts DigitsFacts.

Lemma takeWhile_digits ds c t :
  forallb re_digit ds = true -> re_digit c = false ->
  takeWhile re_digit (ds ++ c :: t) = ds.
Proof.
  intros Hds Hc. induction ds as [|d ds IH]; cbn [app takeWhile].
  - now rewrite Hc.
  - cbn [forallb] in Hds. apply andb_true_iff in Hds as [Hd Hds].
    rewrite Hd. f_equal. now apply IH.
Qed.

Lemma search_at_page ds c t :
  ds <> [] -> forallb re_digit ds = true -> re_digit c = false ->
  re_search_page (lit "page " ++ ds ++ c :: t) = Some ds.
Proof.
  intros Hne Hds Hc.
  assert (Hm : match_page (lit "page " ++ ds ++ c :: t) = Some ds).
  { unfold match_page.
    change (startswith (lit "page ") (lit "page " ++ ds ++ c :: t)) with true.
    change (skipn 5 (lit "page " ++ ds ++ c :: t)) with (ds ++ c :: t).
    rewrite (takeWhile_digits ds c t Hds Hc).
    destruct ds; [contradiction | reflexivity]. }
  change (lit "page " ++ ds ++ c :: t)
    with ("p"%char :: lit "age " ++ ds ++ c :: t) in *.
  cbn [re_search_page]. now rewrite Hm.
Qed.

Lemma page_after n t :
  re_search_page (lit "page " ++ str_of_nat n ++ "]"%char :: t)
  = Some (str_of_nat n).
Proof.
  apply search_at_page.
  - apply str_of_N_nonempty.
  - apply str_of_N_digits.
  - reflexivity.
Qed.

Lemma page_of_digits n :
  Some (int_of_digits (str_of_nat n)) = Some (N.of_nat n).
Proof. unfold str_of_nat. now rewrite int_of_str. Qed.

(** X15: the citation of a chunk that begins with a line of the corpus.
    The line made for a table record gives type table and the page number
    of the record, whatever the JSON text behind it; the line of a graph
    record gives type graph and its page number; the line of an image
    record gives type image and its page number; the line of a heading or
    of a paragraph gives type text. *)
Theorem corpus_lines_cite_back :
  (forall (json : Type) json_dumps (r : TableExtractor.table_record json) rest,
      cites (table_line json_dumps r ++ rest) table
            (Some (N.of_nat (TableExtractor.page_number r)))) /\
  (forall g rest,
      cites (graph_line g ++ rest) graph
            (Some (N.of_nat (VisualExtractor.graph_page_number g)))) /\
  (forall img rest,
      cites (image_line img ++ rest) image
            (Some (N.of_nat (VisualExtractor.image_page_number img)))) /\
  (forall b rest, type (source_of (text_line b ++ rest)) = text).
Proof.
  split; [|split; [|split]].
  - intros json json_dumps r rest. unfold cites, table_line, source_of.
    cbn [type page]. split; [reflexivity|].
    rewrite <- !app_assoc.
    change (lit "[Table on page " ++ ?x) with (lit "[Table on " ++ lit "page " ++ x).
    change (re_search_page (lit "[Table on " ++ ?x)) with (re_search_page x).
    change (lit "] " ++ ?x) with ("]"%char :: " "%char :: x).
    rewrite page_after. apply page_of_digits.
  - intros g rest. unfold cites, graph_line, source_of.
    cbn [type page]. split; [reflexivity|].
    rewrite <- !app_assoc.
    change (lit "[Graph on page " ++ ?x) with (lit "[Graph on " ++ lit "page " ++ x).
    change (re_search_page (lit "[Graph on " ++ ?x)) with (re_search_page x).
    change (lit "] " ++ ?x) with ("]"%char :: " "%char :: x).
    rewrite page_after. apply page_of_digits.
  - intros img rest. unfold cites, image_line, source_of.
    cbn [type page]. split; [reflexivity|].
    rewrite <- !app_assoc.
    change (lit "[Image on page " ++ ?x) with (lit "[Image on " ++ lit "page " ++ x).
    change (re_search_page (lit "[Image on " ++ ?x)) with (re_search_page x).
    change (lit "] " ++ ?x) with ("]"%char :: " "%char :: x).
    rewrite page_after. apply page_of_digits.
  - intros b rest. destruct b; reflexivity.
Qed.

(** X16: the chat endpoint and the history. A blank question is answered
    with status 400 and the chain is not called. Otherwise the chain is
    called with the stripped question and the whole history; when it
    returns, the answer is given with the citations of its documents and
    the turn (question, answer) is put at the end of the history; when it
    raises, or when no document was processed, the status is 400 for a
    [ValueError] and 500 otherwise, and the history is left as it was. The
    chain itself is never changed. *)
Theorem chat_history_grows g payload_question :
  Server.processor_chain (snd (Server.chat_endpoint g payload_question))
  = Server.processor_chain g /\
  match fst (Server.chat_endpoint g payload_question) with
  | Server.Response r =>
      strip payload_question <> [] /\
      exists ainvoke cr,
        Server.processor_chain g = Some ainvoke /\
        ainvoke (strip payload_question) (Server.chat_history g) = Ok cr /\
        r = mkResponse (chain_answer cr) (map source_of (source_documents cr)) /\
        Server.chat_history (snd (Server.chat_endpoint g payload_question))
        = Server.chat_history g ++ [(strip payload_question, chain_answer cr)]
  | Server.HTTPException status_code detail =>
      snd (Server.chat_endpoint g payload_question) = g /\
      (status_code = 400 \/ status_code = 500) /\
      (strip payload_question = [] ->
       status_code = 400 /\ detail = lit "Question cannot be empty.") /\
      (Server.processor_chain g = None -> status_code = 400)
  end.
Proof.
  unfold Server.chat_endpoint.
  destruct (strip payload_question) as [|c q] eqn:Eq; cbn [truthy negb fst snd].
  - split; [reflexivity|]. repeat split; auto.
  - unfold ask_question.
    destruct (Server.processor_chain g) as [ainvoke|] eqn:Ec.
    + destruct (ainvoke (c :: q) (Server.chat_history g)) as [cr|e] eqn:Ea;
        cbn [bind fst snd Server.processor_chain Server.chat_history answer].
      * split; [reflexivity|]. split; [discriminate|].
        exists ainvoke, cr. repeat split; auto.
      * destruct (exn_kind e); cbn [fst snd]; (split; [exact Ec|]);
          repeat split; auto; discriminate.
    + cbn [fst snd exn_kind not_ready]. split; [exact Ec|].
      repeat split; auto; discriminate.
Qed.

End CitationCoverage.

(** ** Processing a document and the upload endpoint *)

Module ProcessCoverage.

Import App Server PyFacts TextCoverage.

Section Process.

Variables json store : Type.
Variable caps : capabilities json store.

Lemma process_body_keeps_chain self file_path e self' :
  process_body caps self file_path = (Raise e, self') ->
  chain_of self' = chain_of self.
Proof.
  unfold process_body.
  destruct (pages <- read_pages caps file_path ;; TextExtractor.async_extract pages)
    as [text_content|e0]; [|intro H; now injection H as _ <-].
  destruct (getsize caps file_path) as [size|]; [|intro H; now injection H as _ <-].
  destruct (from_texts caps _) as [store_|e1]; [|intro H; now injection H as _ <-].
  destruct (from_llm caps store_) as [chain_|e2]; [discriminate|].
  intro H. now injection H as _ <-.
Qed.

Lemma process_body_ok self file_path :
  forall extracted self',
    process_body caps self file_path = (Ok extracted, self') <->
    exists pages st size store_ chain_,
      read_pages caps file_path = Ok pages /\
      getsize caps file_path = Some size /\
      from_texts caps (corpus_of caps file_path pages) = Ok store_ /\
      from_llm caps store_ = Ok chain_ /\
      self' = mkProcessor (Some store_) (Some chain_) /\
      extracted
      = mkExtracted
          (mkMetadata (basename caps file_path) (now_iso caps) size
                      (length pages))
          (TextExtractor.mkTextResult (flat_map page_blocks pages) st
                                      (length pages))
          (TableExtractor.async_extract (llm caps) (json_loads caps)
                                        (open_tables caps file_path))
          (VisualExtractor.async_extract (arctan2 caps)
                                         (convert_from_path caps file_path)) /\
      TextExtractor.async_extract pages
      = Ok (TextExtractor.mkTextResult (flat_map page_blocks pages) st
                                       (length pages)).
Proof.
  intros extracted self'. unfold process_body, corpus_of. split.
  - destruct (read_pages caps file_path) as [pages|e0]; cbn [bind];
      [|discriminate].
    destruct (text_extract_composes_blocks pages) as [st Et]. rewrite Et.
    cbn [TextExtractor.content TextExtractor.total_pages].
    destruct (getsize caps file_path) as [size|]; [|discriminate].
    destruct (from_texts caps _) as [store_|e1] eqn:Es; [|discriminate].
    destruct (from_llm caps store_) as [chain_|e2] eqn:Ec; [|discriminate].
    intro H. injection H as <- <-.
    exists pages, st, size, store_, chain_. repeat split; auto.
  - intros [pages [st [size [store_ [chain_ [Hp [Hs [Hst [Hc [-> [-> Ht]]]]]]]]]]].
    rewrite Hp. cbn [bind]. rewrite Ht.
    cbn [TextExtractor.content TextExtractor.total_pages].
    rewrite Hs, Hst, Hc. reflexivity.
Qed.

End Process.

Lemma process_pdf_keeps_chain (json store : Type)
  (caps : capabilities json store) self file_path e self' :
  process_pdf caps self file_path = (Raise e, self') ->
  chain_of self' = chain_of self.
Proof.
  unfold process_pdf.
  destruct (validate_pdf (getsize caps) file_path) as [[]|e0].
  - destruct (process_body caps self file_path) as [[d|e1] s1] eqn:E;
      [discriminate|].
    intro H. injection H as _ <-.
    exact (process_body_keeps_chain json store caps self file_path e1 s1 E).
  - intro H. now injection H as _ <-.
Qed.

Lemma process_pdf_sets_chain (json store : Type)
  (caps : capabilities json store) self file_path extracted self' :
  process_pdf caps self file_path = (Ok extracted, self') ->
  exists store_ chain_, self' = mkProcessor (Some store_) (Some chain_).
Proof.
  unfold process_pdf.
  destruct (validate_pdf (getsize caps) file_path) as [[]|e0]; [|discriminate].
  destruct (process_body caps self file_path) as [[d|e1] s1] eqn:E;
    [|discriminate].
  intro H. injection H as <- <-.
  apply (process_body_ok json store caps self file_path d s1) in E.
  destruct E as [pages [st [size [store_ [chain_ [_ [_ [_ [_ [-> _]]]]]]]]]].
  now exists store_, chain_.
Qed.

(** X17: [process_pdf] succeeds exactly when the file passes
    [validate_pdf], the reader gives the pages, the index is built on the
    corpus and the chain is made; no failure of the table or of the visual
    extraction makes it fail. It then returns the results of the three
    structurers, with the page count of the reader as [total_pages], and
    sets both the store and the chain. *)
Theorem process_pdf_succeeds_iff (json store : Type)
  (caps : capabilities json store) self file_path extracted self' :
  process_pdf caps self file_path = (Ok extracted, self') <->
  validate_pdf (getsize caps) file_path = Ok tt /\
  exists pages st size store_ chain_,
    read_pages caps file_path = Ok pages /\
    getsize caps file_path = Some size /\
    from_texts caps (corpus_of caps file_path pages) = Ok store_ /\
    from_llm caps store_ = Ok chain_ /\
    self' = mkProcessor (Some store_) (Some chain_) /\
    extracted
    = mkExtracted
        (mkMetadata (basename caps file_path) (now_iso caps) size
                    (length pages))
        (TextExtractor.mkTextResult (flat_map page_blocks pages) st
                                    (length pages))
        (TableExtractor.async_extract (llm caps) (json_loads caps)
                                      (open_tables caps file_path))
        (VisualExtractor.async_extract (arctan2 caps)
                                       (convert_from_path caps file_path)) /\
    TextExtractor.async_extract pages
    = Ok (TextExtractor.mkTextResult (flat_map page_blocks pages) st
                                     (length pages)).
Proof.
  unfold process_pdf. split.
  - destruct (validate_pdf (getsize caps) file_path) as [[]|e]; [|discriminate].
    destruct (process_body caps self file_path) as [[d|e] s1] eqn:E;
      [|discriminate].
    intro H. injection H as <- <-. split; [reflexivity|].
    now apply (process_body_ok json store caps self file_path d s1).
  - intros [Hv Hex]. rewrite Hv.
    apply (process_body_ok json store caps self file_path extracted self') in Hex.
    now rewrite Hex.
Qed.

(** X18: when [process_pdf] fails, the chain of the processor is the one it
    had: a question asked afterwards is answered on the document processed
    before, or refused if there was none. A failure of the validation is
    raised as it is; every other failure is raised as a [ValueError] whose
    message begins with "Error processing PDF: ". *)
Theorem process_pdf_failure (json store : Type)
  (caps : capabilities json store) self file_path e self' :
  process_pdf caps self file_path = (Raise e, self') ->
  chain_of self' = chain_of self /\
  (validate_pdf (getsize caps) file_path = Raise e /\ self' = self \/
   validate_pdf (getsize caps) file_path = Ok tt /\
   exn_kind e = ValueError /\
   exists msg, exn_msg e = lit "Error processing PDF: " ++ msg).
Proof.
  unfold process_pdf.
  destruct (validate_pdf (getsize caps) file_path) as [[]|e0].
  - destruct (process_body caps self file_path) as [[d|e1] s1] eqn:E;
      [discriminate|].
    intro H. injection H as <- <-. split.
    + exact (process_body_keeps_chain json store caps self file_path e1 s1 E).
    + right. split; [reflexivity | split; [reflexivity|]]. now exists (exn_msg e1).
  - intro H. injection H as <- <-. split; [reflexivity | now left].
Qed.

Lemma process_pdf_failure_witness :
  process_pdf failing_reader (mkProcessor None None) (lit "a.pdf")
  = (Raise (mkExn ValueError
              (lit "Error processing PDF: EOF marker not found")),
     mkProcessor None None) /\
  chain_of (mkProcessor (store := unit) None None) = None.
Proof.
  split; [reflexivity|].
  apply (process_pdf_failure unit unit failing_reader (mkProcessor None None)
           (lit "a.pdf")
           (mkExn ValueError (lit "Error processing PDF: EOF marker not found"))
           (mkProcessor None None)).
  reflexivity.
Defined.

End ProcessCoverage.

(** ** The upload endpoint *)

Module UploadCoverage.

Import App Server PyFacts ProcessCoverage.




Lemma save_chunks_saved (chunks : list (result chunk)) :
  forall size n,
    (size <= MAX_SIZE)%N ->
    save_chunks size chunks = Saved n ->
    n = (size + sent chunks)%N /\ (n <= MAX_SIZE)%N.
Proof.
  induction chunks as [|[[len written]|e] rest IH]; intros size n Hs;
    cbn [save_chunks sent].
  - intro H. injection H as <-. split; [lia | exact Hs].
  - destruct (len =? 0)%N eqn:E0.
    + intro H. injection H as <-. split; [lia | exact Hs].
    + destruct (MAX_SIZE <? size + len)%N eqn:Em; [discriminate|].
      destruct written as [u|e]; [|discriminate].
      intro H. apply N.ltb_ge in Em.
      destruct (IH (size + len)%N n Em H) as [-> Hn]. split; [lia | exact Hn].
  - discriminate.
Qed.

Lemma save_chunks_too_large (chunks : list (result chunk)) :
  forall size,
    save_chunks size chunks = TooLarge -> (MAX_SIZE < size + sent chunks)%N.
Proof.
  induction chunks as [|[[len written]|e] rest IH]; intros size;
    cbn [save_chunks sent]; try discriminate.
  destruct (len =? 0)%N eqn:E0; [discriminate|].
  destruct (MAX_SIZE <? size + len)%N eqn:Em.
  - intros _. apply N.ltb_lt in Em. lia.
  - destruct written as [u|e]; [|discriminate].
    intro H. apply IH in H. lia.
Qed.

Lemma save_chunks_no_failure (chunks : list (result chunk)) :
  forall size,
    (size <= MAX_SIZE)%N ->
    Forall no_failure chunks ->
    save_chunks size chunks
    = if (MAX_SIZE <? size + sent chunks)%N then TooLarge
      else Saved (size + sent chunks).
Proof.
  induction chunks as [|c rest IH]; intros size Hs Hall;
    cbn [save_chunks sent].
  - rewrite N.add_0_r. apply N.ltb_ge in Hs. now rewrite Hs.
  - inversion Hall as [|c' rest' [len ->] Hrest]; subst.
    cbn [save_chunks sent].
    destruct (len =? 0)%N eqn:E0.
    + rewrite N.add_0_r. apply N.ltb_ge in Hs. now rewrite Hs.
    + destruct (MAX_SIZE <? size + len)%N eqn:Em.
      * apply N.ltb_lt in Em.
        assert ((MAX_SIZE <? size + (len + sent rest))%N = true) as ->
          by (apply N.ltb_lt; lia).
        reflexivity.
      * apply N.ltb_ge in Em. rewrite (IH (size + len)%N Em Hrest).
        now rewrite N.add_assoc.
Qed.

(** X19: the loop that saves an upload counts the bytes of the chunks up to
    the first empty one. If it ends normally the file has exactly these
    bytes and they are at most [MAX_SIZE]; if it refuses the file as too
    large they are more than [MAX_SIZE]; and when no read and no write
    raises, it refuses the file exactly when they are more than [MAX_SIZE]. *)
Theorem upload_size_limit (chunks : list (result chunk)) :
  (forall n, save_chunks 0 chunks = Saved n ->
             n = sent chunks /\ (n <= MAX_SIZE)%N) /\
  (save_chunks 0 chunks = TooLarge -> (MAX_SIZE < sent chunks)%N) /\
  (Forall no_failure chunks ->
   save_chunks 0 chunks
   = if (MAX_SIZE <? sent chunks)%N then TooLarge else Saved (sent chunks)).
Proof.
  split; [|split].
  - intros n H.
    apply (save_chunks_saved chunks 0%N n) in H; [exact H | discriminate].
  - intro H. exact (save_chunks_too_large chunks 0%N H).
  - intro H.
    apply (save_chunks_no_failure chunks 0%N); [discriminate | exact H].
Qed.




(** X21: what an upload does to the globals. A success leaves a processor
    with a store and a chain and an empty chat history. A refusal with 400
    or 413 leaves the globals as they were. A refusal with 500 either
    leaves the chain and the history as they were, or it comes from
    writing the JSON file: then the new document is installed and the
    history is empty although the upload was refused. *)
Theorem upload_state (json store : Type) (caps : capabilities json store)
  (up : upload) (st : server_state store) :
  match upload_pdf_endpoint caps up st with
  | (Uploaded _, st') =>
      history st' = [] /\
      exists store_ chain_,
        pdf_processor st' = mkProcessor (Some store_) (Some chain_)
  | (Refused status_code detail, st') =>
      (status_code = 400 \/ status_code = 413 \/ status_code = 500) /\
      (status_code <> 500 -> st' = st) /\
      (history st' = history st /\
       chain_of (pdf_processor st') = chain_of (pdf_processor st) \/
       status_code = 500 /\
       (exists e, up_save_json up = Raise e /\ detail = exn_msg e) /\
       history st' = [] /\
       exists store_ chain_,
         pdf_processor st' = mkProcessor (Some store_) (Some chain_))
  end.
Proof.
  unfold upload_pdf_endpoint.
  destruct (negb (endswith (lit ".pdf") (lower (up_filename up)))).
  { split; [now left | split; [reflexivity | now left]]. }
  destruct (up_mkdtemp up) as [tmp_dir|e].
  2:{ split; [now right; right | split; [congruence | now left]]. }
  destruct (up_open up) as [[]|e].
  2:{ split; [now right; right | split; [congruence | now left]]. }
  destruct (save_chunks 0 (up_chunks up)) as [file_size| |e].
  2:{ split; [now right; left | split; [reflexivity | now left]]. }
  2:{ split; [now right; right | split; [congruence | now left]]. }
  destruct (process_pdf _ (pdf_processor st) _) as [[extracted|e] self'] eqn:E.
  - apply process_pdf_sets_chain in E. destruct E as [store_ [chain_ ->]].
    destruct (up_save_json up) as [[]|e].
    + split; [reflexivity | now exists store_, chain_].
    + split; [now right; right | split; [congruence|]].
      right. split; [reflexivity|]. split; [now exists e|].
      split; [reflexivity | now exists store_, chain_].
  - apply process_pdf_keeps_chain in E.
    split; [now right; right | split; [congruence|]].
    left. split; [reflexivity | exact E].
Qed.

Lemma tables_by_page_metadata (json : Type)
  (tables : list (TableExtractor.table_record json)) :
  tables_by_page (map (@table_metadata json) tables) = [].
Proof.
  induction tables as [|t tables IH]; [reflexivity|].
  cbn [map tables_by_page flat_map]. fold (tables_by_page (map (@table_metadata json) tables)).
  rewrite IH. reflexivity.
Qed.

(** X22: in the summary of an upload [tables_by_page] is always empty,
    whatever tables were extracted: it is read from the metadata of the
    tables, which hold the row and the column count but no page number.
    [total_tables] is the number of the tables. *)
Theorem summary_tables_by_page_empty (json : Type)
  (extracted : extracted_data json) :
  cs_tables_by_page (summary extracted) = [] /\
  cs_total_tables (summary extracted) = length (ed_tables extracted).
Proof.
  unfold summary. cbn [cs_tables_by_page cs_total_tables]. split.
  - apply tables_by_page_metadata.
  - apply length_map.
Qed.

End UploadCoverage.

(** * Examples *)

Module Examples.

Import TextExtractor.

(** A page with the heading "1. Introduction" and two lines of body text. *)
Example heading_then_paragraph :
  async_extract [lit "1. Introduction" ++ newline :: lit "first line"
                 ++ newline :: lit "second line"]
  = Ok (mkTextResult
          [Heading (lit "1. Introduction") 1;
           Paragraph (lit "first line second line")]
          (mkStatistics 4 1 1 0 0 0) 1).
Proof. reflexivity. Qed.

Example is_heading_values :
  _is_heading (lit "RESULTS") = Ok true /\
  _is_heading (lit "see the table below for the details") = Ok false /\
  _is_heading (lit "v1.5") = Ok true /\
  _is_heading (lit "v0.5") = Ok false /\
  _is_heading (lit "one two three four five six seven eight nine ten Eleven:")
  = Ok false.
Proof. repeat split. Qed.

Example format_table :
  TableExtractor._format_table_for_llm
    [[Some (lit " a "); None]; [None; Some (lit "")]; [Some (lit "b"); Some (lit "c")]]
  = lit "a | " ++ newline :: lit "b | c".
Proof. reflexivity. Qed.

Example graph_types :
  VisualExtractor._determine_graph_type
    [[0; 0; 100; 0]; [0; 50; 100; 50]]%Z
    [[0; 0; 0; 100]; [55; 0; 55; 100]; [120; 0; 120; 100]]%Z
  = VisualExtractor.bar_chart /\
  VisualExtractor._determine_graph_type
    [[0; 0; 100; 0]; [0; 50; 100; 50]]%Z
    [[0; 0; 0; 100]; [55; 0; 55; 100]]%Z
  = VisualExtractor.grid_chart /\
  VisualExtractor._determine_graph_type
    [[0; 0; 100; 0]; [0]]%Z [[0; 0; 0; 100]; [55; 0; 55; 100]]%Z
  = VisualExtractor.unknown_graph_type.
Proof. repeat split; vm_compute; reflexivity. Qed.

Example citation_values :
  App.source_of (lit "[Image on page 12] a caption")
  = App.mkSource App.image (Some 12%N) (lit "[Image on page 12] a caption") /\
  App.source_of (lit "[Paragraph] plain text")
  = App.mkSource App.text None (lit "[Paragraph] plain text").
Proof. split; reflexivity. Qed.

(** The first mention of a page in a chunk that mentions two. *)
Example first_mention :
  first_page_mention (lit "see page 12, not page 3")
                     (lit "see ") (lit "12") (lit ", not page 3") /\
  decimal (lit "12") = 12%N /\ decimal (lit "007") = 7%N.
Proof.
  split; [|split; reflexivity].
  split; [reflexivity|]. split; [discriminate|].
  split; [repeat constructor|].
  split.
  - intros c rest H. injection H as <- _. reflexivity.
  - intros pre' d post' H _.
    destruct pre' as [|c0 [|c1 [|c2 [|c3 pre']]]];
      try discriminate H; simpl; lia.
Qed.

(** [json.loads] raising on a reply of 2000 opening brackets: the table is
    dropped, while a reply that is not JSON gives the fallback record. *)
Example deep_reply_no_record :
  TableExtractor.async_extract
    (fun _ _ _ => Ok deep_reply) sample_loads
    (Ok [Ok [[[Some (lit "a"); Some (lit "b")]]]])
  = [] /\
  TableExtractor.async_extract
    (fun _ _ _ => Ok (lit "no table")) sample_loads
    (Ok [Ok [[[Some (lit "a"); Some (lit "b")]]]])
  = [TableExtractor.mkTable 1 1
       (TableExtractor.RawText (lit "a | b") [lit "a | b"]) 1 2].
Proof. split; vm_compute; reflexivity. Qed.

End Examples.
